(** * otelsink: a file-backed OTLP sink

    Shallow embedding of [otelsink/main.go] (the three gRPC [Export]
    handlers, [Sink.Export], [run] and [main]) together with models of the
    library calls it makes: [strconv.FormatInt], [path/filepath],
    [os.MkdirAll], [os.WriteFile], [klog], [fmt.Errorf], gRPC status errors
    and [context].  The properties of the ingestion service and of the
    persistence sink are stated and proved at the end of the file. *)

From Stdlib Require Import ZArith Ascii String Lia.
From Stdlib.Strings Require Import Byte.
From stdpp Require Import base option list strings gmap fin_maps.

Local Open Scope Z_scope.

(* ===================================================================== *)
(** * Go strings and [strconv] *)
(* ===================================================================== *)

Module strconv.

(** The ASCII digit for [d], [0 <= d < 10]. *)
Definition digit_char (d : Z) : ascii := ascii_of_nat (48 + Z.to_nat d).

(** The value of an ASCII digit. *)
Definition digit_val (c : ascii) : Z := Z.of_nat (nat_of_ascii c) - 48.

Definition is_digit (c : ascii) : bool :=
  (48 <=? Z.of_nat (nat_of_ascii c)) && (Z.of_nat (nat_of_ascii c) <=? 57).

Fixpoint all_digits (s : string) : bool :=
  match s with
  | EmptyString => true
  | String c s' => is_digit c && all_digits s'
  end.

(** [formatBits]: the digits of [u] are produced least significant first
    and prepended to the buffer.  The loop of the Go code runs while
    [u >= 10]; [fuel] bounds the number of iterations. *)
Fixpoint formatBits (fuel : nat) (u : Z) (buf : string) : string :=
  match fuel with
  | O => buf
  | S fuel' =>
      let buf' := String (digit_char (u mod 10)) buf in
      if u <? 10 then buf' else formatBits fuel' (u / 10) buf'
  end.

(** One more than the binary length of [u]: never fewer than its decimal
    digits, so the loop above always finishes within it. *)
Definition digits_fuel (u : Z) : nat := S (Z.to_nat (Z.log2 u)).

(** [strconv.FormatInt(i, 10)].  Only base 10 is used by the program; the
    base is kept as an argument and any other base is outside the model. *)
Definition FormatInt (i : Z) (base : Z) : string :=
  if i <? 0
  then String "-" (formatBits (digits_fuel (- i)) (- i) EmptyString)
  else formatBits (digits_fuel i) i EmptyString.

(** Reading a run of decimal digits, most significant first. *)
Fixpoint parse_digits (s : string) (acc : Z) : Z :=
  match s with
  | EmptyString => acc
  | String c s' => parse_digits s' (10 * acc + digit_val c)
  end.

(** [strconv.ParseInt(s, 10, 64)] restricted to well-formed input: an
    optional minus sign followed by decimal digits. *)
Definition ParseInt (s : string) : Z :=
  match s with
  | String "-" s' => - parse_digits s' 0
  | _ => parse_digits s 0
  end.

End strconv.

(* ===================================================================== *)
(** * [path/filepath] on a Unix system *)
(* ===================================================================== *)

Module filepath.

Definition Separator : ascii := "/"%char.

Definition IsPathSeparator (c : ascii) : bool := Ascii.eqb c Separator.

(** [strings.Split(s, "/")]. *)
Fixpoint split (s : string) : list string :=
  match s with
  | EmptyString => [EmptyString]
  | String c s' =>
      if IsPathSeparator c then EmptyString :: split s'
      else match split s' with
           | h :: t => String c h :: t
           | [] => [String c EmptyString]
           end
  end.

(** [strings.Join(elems, "/")]. *)
Fixpoint join (elems : list string) : string :=
  match elems with
  | [] => EmptyString
  | [e] => e
  | e :: rest => e +:+ String Separator (join rest)
  end.

Definition rooted (path : string) : bool :=
  match path with
  | String c _ => IsPathSeparator c
  | EmptyString => false
  end.

(** One step of [Clean] on the element [e]; [out] holds the elements kept
    so far, last one first.
    - an empty element (doubled separator) and [.] are dropped;
    - [..] removes the last kept element when there is one that is not
      itself a kept [..]; otherwise it is dropped for a rooted path and
      kept for a relative one;
    - any other element is kept. *)
Definition clean_step (is_rooted : bool) (out : list string) (e : string)
  : list string :=
  if bool_decide (e = EmptyString) || bool_decide (e = ".") then out
  else if bool_decide (e = "..") then
    match out with
    | top :: rest =>
        if bool_decide (top = "..") then e :: out else rest
    | [] => if is_rooted then [] else [e]
    end
  else e :: out.

Definition clean_elems (is_rooted : bool) (elems : list string)
  : list string :=
  rev (fold_left (clean_step is_rooted) elems []).

(** The cleaned path for the kept elements: the empty result is [.] (or
    [/] when rooted). *)
Definition render (is_rooted : bool) (elems : list string) : string :=
  match elems with
  | [] => if is_rooted then "/" else "."
  | _ => (if is_rooted then "/" else EmptyString) +:+ join elems
  end.

(** [filepath.Clean]: the shortest path name equivalent to [path] by
    purely lexical processing. *)
Definition Clean (path : string) : string :=
  match path with
  | EmptyString => "."
  | _ => render (rooted path) (clean_elems (rooted path) (split path))
  end.

(** [filepath.Join]: leading empty elements are skipped, the rest is
    joined with the separator and cleaned; the result is empty if every
    element is. *)
Fixpoint Join (elem : list string) : string :=
  match elem with
  | [] => EmptyString
  | e :: rest =>
      if bool_decide (e = EmptyString) then Join rest
      else Clean (join elem)
  end.

Fixpoint has_sep (s : string) : bool :=
  match s with
  | EmptyString => false
  | String c s' => IsPathSeparator c || has_sep s'
  end.

(** [path[:i+1]] where [i] is the index of the last separator: everything
    up to and including the last separator, empty if there is none. *)
Fixpoint up_to_last_sep (path : string) : string :=
  match path with
  | EmptyString => EmptyString
  | String c s' =>
      if has_sep s' then String c (up_to_last_sep s')
      else if IsPathSeparator c then String c EmptyString
      else EmptyString
  end.

(** [filepath.Dir]: all but the last element of [path], cleaned. *)
Definition Dir (path : string) : string := Clean (up_to_last_sep path).

(** A path element as the sink uses them: not empty, no separator inside,
    and neither [.] nor [..]. *)
Definition plain (e : string) : Prop :=
  e <> EmptyString /\ has_sep e = false /\ e <> "." /\ e <> "..".

End filepath.

(* ===================================================================== *)
(** * Go error values *)
(* ===================================================================== *)

Module syscall.
Inductive Errno := ENOENT | EEXIST | ENOTDIR | EISDIR | EACCES | ENOSPC | EBADF.
End syscall.

Module codes.
(** [google.golang.org/grpc/codes], in numeric order. *)
Inductive Code :=
| OK | Canceled | Unknown | InvalidArgument | DeadlineExceeded | NotFound
| AlreadyExists | PermissionDenied | ResourceExhausted | FailedPrecondition
| Aborted | OutOfRange | Unimplemented | Internal | Unavailable | DataLoss
| Unauthenticated.
End codes.

(** The non-nil values of Go's [error] interface that the program can see.
    A possibly-nil [error] is an [option error], [None] being [nil].
    Messages are kept as format and arguments, as they are given to
    [fmt.Errorf]; nothing in the program inspects the rendered text. *)
Inductive error :=
| PathError (Op : string) (Path : list string) (Err : syscall.Errno)
    (** [*fs.PathError], with the path in resolved form *)
| errorString (s : string)
    (** [errors.New(s)] and other opaque library errors *)
| wrapError (format : string) (a : list string) (err : error)
    (** [fmt.Errorf(format, a..., err)] with a final [%w] verb *)
| statusError (c : codes.Code) (msg : string)
    (** [status.Errorf(c, msg)] *).

Definition fmt_Errorf (format : string) (a : list string) (err : error) : error :=
  wrapError format a err.

Definition status_Errorf (c : codes.Code) (format : string) : error :=
  statusError c format.

(* ===================================================================== *)
(** * The world the server runs in *)
(* ===================================================================== *)

(** A file-system object.  [writable] says whether this process may create
    entries in the directory, respectively open the file for writing. *)
Inductive Node :=
| Dir (writable : bool)
| File (writable : bool) (data : list byte).

(** File-system calls that change (or try to change) the file system, as the
    kernel sees them; paths are resolved. *)
Inductive Syscall :=
| SysMkdir (path : list string) (perm : Z)
| SysOpen (path : list string) (perm : Z)   (** O_WRONLY|O_CREATE|O_TRUNC *)
| SysWrite (path : list string) (data : list byte).

Inductive Severity := Info | Warning | Error | Fatal.

(** One klog line: severity, format and arguments. *)
Record LogEntry := { severity : Severity; format : string; args : list string }.

Record World := {
  now : Z;          (** wall clock: nanoseconds since the Unix epoch *)
  cwd : list string;                    (** working directory, resolved *)
  nodes : gmap (list string) Node;      (** the file tree, by resolved path *)
  free : nat;                           (** bytes left on the device *)
  trace : list Syscall;                 (** mutating calls made so far *)
  klog_out : list LogEntry              (** what klog has written so far *)
}.

Definition set_nodes (f : gmap (list string) Node -> gmap (list string) Node)
    (w : World) : World :=
  {| now := now w; cwd := cwd w; nodes := f (nodes w); free := free w;
     trace := trace w; klog_out := klog_out w |}.

Definition set_free (n : nat) (w : World) : World :=
  {| now := now w; cwd := cwd w; nodes := nodes w; free := n;
     trace := trace w; klog_out := klog_out w |}.

Definition record_syscall (c : Syscall) (w : World) : World :=
  {| now := now w; cwd := cwd w; nodes := nodes w; free := free w;
     trace := trace w ++ [c]; klog_out := klog_out w |}.

Definition record_log (l : LogEntry) (w : World) : World :=
  {| now := now w; cwd := cwd w; nodes := nodes w; free := free w;
     trace := trace w; klog_out := klog_out w ++ [l] |}.

(** The clock is moved by the environment, never by the program. *)
Definition set_now (t : Z) (w : World) : World :=
  {| now := t; cwd := cwd w; nodes := nodes w; free := free w;
     trace := trace w; klog_out := klog_out w |}.

(** Sequential Go code acting on the world. *)
Definition IO (A : Type) : Type := World -> A * World.

Definition ret {A} (a : A) : IO A := fun w => (a, w).

Definition bind {A B} (c : IO A) (k : A -> IO B) : IO B :=
  fun w => let (a, w') := c w in k a w'.

Notation "x <- c ;; k" := (bind c (fun x => k))
  (at level 20, c at level 99, k at level 200, format "x  <-  c  ;;  '/' k").

Module time.
Record Time := { UnixNano : Z }.
Definition Now : IO Time := fun w => ({| UnixNano := now w |}, w).
End time.

Module context.
Inductive State := Active | Canceled | DeadlineExceeded.
Record Context := { state : State }.

Definition Background : Context := {| state := Active |}.

(** [ctx.Err()]: nil until the context is done. *)
Definition Err (ctx : Context) : option error :=
  match state ctx with
  | Active => None
  | Canceled => Some (errorString "context canceled")
  | DeadlineExceeded => Some (errorString "context deadline exceeded")
  end.
End context.

Module klog.
Definition Infof (fmt : string) (a : list string) : IO unit :=
  fun w => (tt, record_log {| severity := Info; format := fmt; args := a |} w).
End klog.

(* ===================================================================== *)
(** * Package [os]: directories and files *)
(* ===================================================================== *)

(** The model has no symbolic links, and resolves a path name lexically
    against the working directory.  Every path the sink hands to [os] comes
    out of [filepath.Clean], where [..] can only lead the path, so this is
    the path the kernel would reach.  Permission bits are reduced to the
    owner's write bit, and the umask is taken to leave it alone.  The
    failures of the model are a file or a directory in the way, a missing
    or read-only parent, a read-only file, and a device without room;
    [WriteFile] is not atomic: as its Go documentation says, a failure
    after the open leaves the file partially written. *)
Module os.
Import syscall.

Definition walk (out : list string) (e : string) : list string :=
  if bool_decide (e = EmptyString) || bool_decide (e = ".") then out
  else if bool_decide (e = "..") then tail out
  else e :: out.

(** The resolved form of [path]: its elements from the root directory. *)
Definition resolve (w : World) (path : string) : list string :=
  rev (fold_left walk (filepath.split path)
         (if filepath.rooted path then [] else rev (cwd w))).

Definition parent (k : list string) : list string := removelast k.

(** Bit 7 (0200) of a permission word. *)
Definition owner_writable (perm : Z) : bool := Z.testbit perm 7.

(** [mkdir(2)]. *)
Definition Mkdir (k : list string) (perm : Z) : IO (option error) :=
  fun w0 =>
    let w := record_syscall (SysMkdir k perm) w0 in
    match nodes w !! k with
    | Some _ => (Some (PathError "mkdir" k EEXIST), w)
    | None =>
        match nodes w !! parent k with
        | Some (Dir true) =>
            (None, set_nodes (insert k (Dir (owner_writable perm))) w)
        | Some (Dir false) => (Some (PathError "mkdir" k EACCES), w)
        | Some (File _ _) => (Some (PathError "mkdir" k ENOTDIR), w)
        | None => (Some (PathError "mkdir" k ENOENT), w)
        end
    end.

(** [os.MkdirAll] on a resolved path, given last element first.
    As in the Go code: a directory that is already there is a success
    without any call to [Mkdir]; a file in the way is [ENOTDIR]; otherwise
    the parent is made first and then [Mkdir] is called, whose failure is
    forgiven if the directory turns out to exist. *)
Fixpoint mkdirAll (rk : list string) (perm : Z) (w : World)
  : option error * World :=
  match nodes w !! rev rk with
  | Some (Dir _) => (None, w)
  | Some (File _ _) => (Some (PathError "mkdir" (rev rk) ENOTDIR), w)
  | None =>
      let '(perr, w1) :=
        match rk with
        | [] => (None, w)
        | _ :: rk' => mkdirAll rk' perm w
        end in
      match perr with
      | Some err => (Some err, w1)
      | None =>
          let '(err, w2) := Mkdir (rev rk) perm w1 in
          match err with
          | None => (None, w2)
          | Some e =>
              match nodes w2 !! rev rk with
              | Some (Dir _) => (None, w2)
              | _ => (Some e, w2)
              end
          end
      end
  end.

Definition MkdirAll (path : string) (perm : Z) : IO (option error) :=
  fun w => mkdirAll (rev (resolve w path)) perm w.

(** [os.OpenFile(name, O_WRONLY|O_CREATE|O_TRUNC, perm)]: an existing
    file is emptied, a missing one is created empty. *)
Definition OpenFile_trunc (k : list string) (perm : Z) : IO (option error) :=
  fun w0 =>
    let w := record_syscall (SysOpen k perm) w0 in
    match nodes w !! k with
    | Some (Dir _) => (Some (PathError "open" k EISDIR), w)
    | Some (File false _) => (Some (PathError "open" k EACCES), w)
    | Some (File true old) =>
        (None, set_free (free w + length old)
                 (set_nodes (insert k (File true [])) w))
    | None =>
        match nodes w !! parent k with
        | Some (Dir true) =>
            (None, set_nodes (insert k (File (owner_writable perm) [])) w)
        | Some (Dir false) => (Some (PathError "open" k EACCES), w)
        | Some (File _ _) => (Some (PathError "open" k ENOTDIR), w)
        | None => (Some (PathError "open" k ENOENT), w)
        end
    end.

(** [f.Write(data)] on the file just opened: as much of [data] as the
    device has room for is appended; if that is not all of it the call
    fails with [ENOSPC] and the file keeps what was written. *)
Definition Write (k : list string) (data : list byte) : IO (option error) :=
  fun w0 =>
    let w := record_syscall (SysWrite k data) w0 in
    match nodes w !! k with
    | Some (File wr old) =>
        let n := Nat.min (length data) (free w) in
        let w' := set_free (free w - n)
                    (set_nodes (insert k (File wr (old ++ take n data))) w) in
        if (length data <=? free w)%nat then (None, w')
        else (Some (PathError "write" k ENOSPC), w')
    | _ => (Some (PathError "write" k EBADF), w)
    end.

(** [os.WriteFile]: open with truncation, write, close. *)
Definition WriteFile (name : string) (data : list byte) (perm : Z)
  : IO (option error) :=
  fun w =>
    let k := resolve w name in
    (err <- OpenFile_trunc k perm ;;
     match err with
     | Some e => ret (Some e)
     | None => Write k data
     end) w.

End os.

(* ===================================================================== *)
(** * Protocol buffer messages *)
(* ===================================================================== *)

(** What the program uses of [proto.Message]: the binary wire encoding and
    the text rendering.  [Unmarshal] is not called by the program; it is
    what a reader of the stored files would use. *)
Class Message (M : Type) := {
  proto_Marshal : M -> list byte + error;
  proto_Unmarshal : list byte -> option M;
  prototext_Format : M -> string
}.

(** The codec law assumed of the protobuf library: decoding an encoding
    gives the message back. *)
Class MessageLaws (M : Type) `{Message M} := {
  unmarshal_marshal :
    forall (m : M) (b : list byte),
      proto_Marshal m = inl b -> proto_Unmarshal b = Some m
}.

Module collectortracepb.
Record ExportTracePartialSuccess :=
  { rejected_spans : Z; error_message : string }.
Record ExportTraceServiceResponse :=
  { partial_success : option ExportTracePartialSuccess }.
End collectortracepb.

Module collectormetricspb.
Record ExportMetricsPartialSuccess :=
  { rejected_data_points : Z; error_message : string }.
Record ExportMetricsServiceResponse :=
  { partial_success : option ExportMetricsPartialSuccess }.
End collectormetricspb.

Module collectorlogspb.
Record ExportLogsPartialSuccess :=
  { rejected_log_records : Z; error_message : string }.
Record ExportLogsServiceResponse :=
  { partial_success : option ExportLogsPartialSuccess }.
End collectorlogspb.

(* ===================================================================== *)
(** * The persistence sink *)
(* ===================================================================== *)

Record Sink := { dir : string }.

(** [func (s *Sink) Export(ctx, stream, msg) error]. *)
Definition Sink_Export {M} `{Message M}
    (s : Sink) (ctx : context.Context) (stream : string) (msg : M)
  : IO (option error) :=
  t <- time.Now ;;
  let n := strconv.FormatInt (time.UnixNano t) 10 in
  let p := filepath.Join [dir s; stream; n] in
  err <- os.MkdirAll (filepath.Dir p) 493 (* 0755 *) ;;
  match err with
  | Some err =>
      ret (Some (fmt_Errorf "failed to create directory %q: %w"
                   [filepath.Dir p] err))
  | None =>
      match proto_Marshal msg with
      | inr err => ret (Some (fmt_Errorf "failed to serialize message: %w" [] err))
      | inl b =>
          err <- os.WriteFile p b 420 (* 0644 *) ;;
          match err with
          | Some err =>
              ret (Some (fmt_Errorf "failed to write file %q: %w" [p] err))
          | None => ret None
          end
      end
  end.

(* ===================================================================== *)
(** * The ingestion service *)
(* ===================================================================== *)

Record traceServer := { trace_sink : Sink }.
Record metricsServer := { metrics_sink : Sink }.
Record logsServer := { logs_sink : Sink }.

Section Servers.
Context {ExportTraceServiceRequest : Type} `{Message ExportTraceServiceRequest}.
Context {ExportMetricsServiceRequest : Type} `{Message ExportMetricsServiceRequest}.
Context {ExportLogsServiceRequest : Type} `{Message ExportLogsServiceRequest}.

Definition traceServer_Export (s : traceServer) (ctx : context.Context)
    (req : ExportTraceServiceRequest)
  : IO (collectortracepb.ExportTraceServiceResponse + error) :=
  _ <- klog.Infof "trace.Export %v" [prototext_Format req] ;;
  err <- Sink_Export (trace_sink s) ctx "traces" req ;;
  match err with
  | Some _ => ret (inr (status_Errorf codes.Internal "error writing data"))
  | None => ret (inl {| collectortracepb.partial_success := None |})
  end.

Definition metricsServer_Export (s : metricsServer) (ctx : context.Context)
    (req : ExportMetricsServiceRequest)
  : IO (collectormetricspb.ExportMetricsServiceResponse + error) :=
  _ <- klog.Infof "metrics.Export %v" [prototext_Format req] ;;
  err <- Sink_Export (metrics_sink s) ctx "metrics" req ;;
  match err with
  | Some _ => ret (inr (status_Errorf codes.Internal "error writing data"))
  | None => ret (inl {| collectormetricspb.partial_success := None |})
  end.

Definition logsServer_Export (s : logsServer) (ctx : context.Context)
    (req : ExportLogsServiceRequest)
  : IO (collectorlogspb.ExportLogsServiceResponse + error) :=
  _ <- klog.Infof "logs.Export %v" [prototext_Format req] ;;
  err <- Sink_Export (logs_sink s) ctx "logs" req ;;
  match err with
  | Some _ => ret (inr (status_Errorf codes.Internal "error writing data"))
  | None => ret (inl {| collectorlogspb.partial_success := None |})
  end.

End Servers.

(* ===================================================================== *)
(** * Process entry: [run] and [main] *)
(* ===================================================================== *)

(** How a Go call ends: it returns, it ends the process ([os.Exit]), or it
    never comes back. *)
Inductive Outcome (A : Type) :=
| Returns (a : A)
| Exits (status : Z)
| Blocks.
Arguments Returns {A} a.
Arguments Exits {A} status.
Arguments Blocks {A}.

Inductive FlagResult := FlagsOk | FlagsHelp | FlagsBad.

(** What the outside world decides during one run of the process. *)
Record Env := {
  flags : FlagResult;            (** how [flag.Parse] fares on the command line *)
  listen_err : option error;     (** the error of [net.Listen], nil if it binds *)
  interrupted : bool;            (** an interrupt signal is delivered *)
  serve_done : option (option error);
      (** what [grpcServer.Serve] returns, if it returns *)
  ctx_case_first : bool
      (** the choice of [select] when both cases are ready *)
}.

Module signal.
(** [signal.NotifyContext(parent, os.Interrupt)]: the context as the
    [select] statement finds it, cancelled once the signal has arrived. *)
Definition NotifyContext (parent : context.Context) (env : Env)
  : context.Context :=
  match context.state parent with
  | context.Active =>
      if interrupted env then {| context.state := context.Canceled |}
      else parent
  | _ => parent
  end.
End signal.

(** [flag.Parse] on the default flag set ([flag.ExitOnError]). *)
Definition flag_Parse (env : Env) : Outcome unit :=
  match flags env with
  | FlagsOk => Returns tt
  | FlagsHelp => Exits 0
  | FlagsBad => Exits 2
  end.

(** The [select] statement at the end of [run]: [<-ctx.Done()] is ready
    once the context has an error, [<-listenErr] once [Serve] has
    returned. *)
Definition select_done_or_listenErr (ctx : context.Context) (env : Env)
  : Outcome (option error) :=
  match context.Err ctx, serve_done env with
  | None, None => Blocks
  | Some _, None => Returns (context.Err ctx)
  | None, Some err => Returns err
  | Some _, Some err =>
      if ctx_case_first env then Returns (context.Err ctx) else Returns err
  end.

(** [func run(ctx context.Context) error]. *)
Definition run (ctx : context.Context) (env : Env) : Outcome (option error) :=
  let listen := "localhost:3000" in
  match flag_Parse env with
  | Exits st => Exits st
  | Blocks => Blocks
  | Returns _ =>
      match listen_err env with
      | Some err =>
          Returns (Some (fmt_Errorf "failed to listen on %q: %w" [listen] err))
      | None => select_done_or_listenErr ctx env
      end
  end.

(** The line feed that ends the format of [main]'s message. *)
Definition LF : string := String (ascii_of_nat 10) EmptyString.

(** What a finished process leaves behind. *)
Record Exit := {
  status : Z;
  stderr : list (string * error)
    (** what [main] itself prints with [fmt.Fprintf(os.Stderr, format, err)];
        the lines of klog are not part of it *)
}.

(** [func main()]; [None] is a process that keeps running. *)
Definition main (env : Env) : option Exit :=
  let ctx := signal.NotifyContext context.Background env in
  match run ctx env with
  | Blocks => None
  | Exits st => Some {| status := st; stderr := [] |}
  | Returns (Some err) => Some {| status := 1; stderr := [("%v" +:+ LF, err)] |}
  | Returns None => Some {| status := 0; stderr := [] |}
  end.

(** The sink that [run] builds. *)
Definition the_sink : Sink := {| dir := "data" |}.

(* ===================================================================== *)
(** * Sample messages and worlds, for the examples *)
(* ===================================================================== *)

Module sample.

(** A stand-in for an export request: its wire form is its text, and it
    cannot be encoded when it is not well formed (as a protobuf string
    field that is not valid UTF-8). *)
Record Request := { text : string; well_formed : bool }.

#[global] Instance Request_Message : Message Request := {|
  proto_Marshal r :=
    if well_formed r then inl (list_byte_of_string (text r))
    else inr (errorString "proto: field contains invalid UTF-8");
  proto_Unmarshal b :=
    Some {| text := string_of_list_byte b; well_formed := true |};
  prototext_Format r := text r
|}.

(** Decoding the wire form of a well-formed request gives it back. *)
#[global] Instance Request_Laws : MessageLaws Request.
Proof.
  constructor. intros [txt wf] b.
  unfold proto_Marshal, proto_Unmarshal, Request_Message.
  cbn [well_formed text].
  destruct wf; [|discriminate]. intros [= <-].
  now rewrite string_of_list_byte_of_string.
Qed.

Definition gauge : Request :=
  {| text := "production=42"; well_formed := true |}.
Definition span : Request :=
  {| text := "span"; well_formed := true |}.
Definition broken : Request :=
  {| text := "gauge"; well_formed := false |}.

(** A working directory [/srv] that is writable and empty. *)
Definition fresh (t : Z) : World :=
  {| now := t; cwd := ["srv"];
     nodes := <[ ["srv"] := Dir true ]> (<[ [] := Dir true ]> ∅);
     free := 1000; trace := []; klog_out := [] |}.

(** The same, with a regular file where the storage root should be. *)
Definition blocked (t : Z) : World :=
  set_nodes (insert ["srv"; "data"] (File true [])) (fresh t).

(** The same as [fresh], with room for two more bytes on the device. *)
Definition full (t : Z) : World := set_free 2 (fresh t).

Definition ctx : context.Context := context.Background.

Definition handler : traceServer := {| trace_sink := the_sink |}.

(** The world after one metrics record has been stored at time [t]; the
    clock has not moved since. *)
Definition once (t : Z) : World :=
  snd (Sink_Export the_sink ctx "metrics" span (fresh t)).

(** A run in which the server starts and is then interrupted. *)
Definition interrupted_run : Env :=
  {| flags := FlagsOk; listen_err := None; interrupted := true;
     serve_done := None; ctx_case_first := false |}.

(** A request with nothing in it: its wire form has no bytes. *)
Definition nothing : Request := {| text := ""; well_formed := true |}.

(** The storage root and the traces directory are there, but the traces
    directory is read-only. *)
Definition readonly (t : Z) : World :=
  set_nodes (fun m => <[ ["srv"; "data"; "traces"] := Dir false ]>
                        (<[ ["srv"; "data"] := Dir true ]> m)) (fresh t).

(** A run in which the address is taken, and an interrupt arrives too. *)
Definition cannot_bind : Env :=
  {| flags := FlagsOk;
     listen_err := Some (errorString "bind: address already in use");
     interrupted := true; serve_done := None; ctx_case_first := true |}.

(** A run in which the serving loop gives up. *)
Definition serve_fails : Env :=
  {| flags := FlagsOk; listen_err := None; interrupted := false;
     serve_done := Some (Some (errorString "accept: too many open files"));
     ctx_case_first := false |}.

(** The world of [once], one nanosecond later and with the device full. *)
Definition once_full (t : Z) : World := set_free 0 (set_now (t + 1) (once t)).

End sample.

(* ===================================================================== *)
(** * Vocabulary of the statements *)
(* ===================================================================== *)

Definition is_dir (o : option Node) : bool :=
  match o with Some (Dir _) => true | _ => false end.

Definition is_file (o : option Node) : bool :=
  match o with Some (File _ _) => true | _ => false end.

(** The bytes of the file at a path, if there is a file. *)
Definition file_data (o : option Node) : option (list byte) :=
  match o with Some (File _ d) => Some d | _ => None end.

(** The paths that hold a regular file. *)
Definition files (w : World) : gset (list string) :=
  dom (filter (fun kv => is_file (Some kv.2) = true) (nodes w)).

Definition syscall_path (c : Syscall) : list string :=
  match c with
  | SysMkdir k _ | SysOpen k _ | SysWrite k _ => k
  end.

Definition is_mkdir (c : Syscall) : bool :=
  match c with SysMkdir _ _ => true | _ => false end.

(** What a piece of code added to the system-call trace and to the log. *)
Definition calls_since (w w' : World) : list Syscall :=
  drop (length (trace w)) (trace w').

Definition logged_since (w w' : World) : list LogEntry :=
  drop (length (klog_out w)) (klog_out w').

(** A file tree is well formed when everything but the root directory lies
    in a directory. *)
Definition wf_world (w : World) : Prop :=
  forall k x, nodes w !! k = Some x ->
              k = [] \/ is_dir (nodes w !! os.parent k) = true.

(** The clock, the working directory and the log are as they were. *)
Definition same_env (w w' : World) : Prop :=
  now w' = now w /\ cwd w' = cwd w /\ klog_out w' = klog_out w.

(** Between [w] and [w'] the node at [k] is untouched, or it is a directory
    that was made on the way to [target]. *)
Definition kept_or_new_dir (w w' : World) (target k : list string) : Prop :=
  nodes w' !! k = nodes w !! k
  \/ (nodes w !! k = None /\ is_dir (nodes w' !! k) = true
      /\ k `prefix_of` target).

(** Whether opening [k] for writing (creating it if need be) succeeds: it
    is a writable file, or it is missing from a writable directory. *)
Definition can_open (w : World) (k : list string) : bool :=
  match nodes w !! k with
  | Some (File wr _) => wr
  | Some (Dir _) => false
  | None =>
      match nodes w !! os.parent k with
      | Some (Dir wr) => wr
      | _ => false
      end
  end.

(** The room on the device once the file at [k], if any, is emptied. *)
Definition room_for (w : World) (k : list string) : nat :=
  match file_data (nodes w !! k) with
  | Some old => free w + length old
  | None => free w
  end.

(** The three steps of persistence all succeed: the stream directory is
    made, the message is encoded, the file is written. *)
Definition persist_steps_ok {M} `{Message M}
    (s : Sink) (stream : string) (msg : M) (w : World) : Prop :=
  let p := filepath.Join [dir s; stream; strconv.FormatInt (now w) 10] in
  fst (os.MkdirAll (filepath.Dir p) 493 w) = None
  /\ exists b, proto_Marshal msg = inl b
               /\ fst (os.WriteFile p b 420
                         (snd (os.MkdirAll (filepath.Dir p) 493 w))) = None.

(** The world once a handler has logged its request. *)
Definition logged (op text : string) (w : World) : World :=
  record_log {| severity := Info; format := op; args := [text] |} w.

(** The one error the handlers give to their callers. *)
Definition generic_failure : error :=
  statusError codes.Internal "error writing data".

(** Between [w] and [w'] only the stream [stream] under the root [kr] was
    worked on: every system call is a [Mkdir] on the way to the stream
    directory or acts on an entry directly inside it, and for any other
    stream name nothing at or below [kr/<other>] was called upon or
    changed. *)
Definition stays_in_stream (w w' : World) (kr : list string) (stream : string)
  : Prop :=
  Forall (fun c => if is_mkdir c
                   then syscall_path c `prefix_of` (kr ++ [stream])
                   else exists n, syscall_path c = kr ++ [stream; n])
    (calls_since w w')
  /\ forall (other : string) (k : list string),
       other <> stream -> (kr ++ [other]) `prefix_of` k ->
       nodes w' !! k = nodes w !! k
       /\ Forall (fun c => syscall_path c <> k) (calls_since w w').

(** The destination of a record: [<root>/<stream>/<n>]. *)
Definition entry_path (root stream : string) (t : Z) : string :=
  root +:+ "/" +:+ stream +:+ "/" +:+ strconv.FormatInt t 10.

(** A storage root in cleaned form that names a directory of its own. *)
Definition proper_root (root : string) : Prop :=
  filepath.Clean root = root /\ root <> "." /\ root <> "/".

(** The path name [Sink.Export] computes in the world [w]. *)
Definition dest_path (s : Sink) (stream : string) (w : World) : string :=
  filepath.Join [dir s; stream; strconv.FormatInt (now w) 10].

(* ===================================================================== *)
(** * The model on concrete inputs *)
(* ===================================================================== *)

Example FormatInt_timestamp :
  strconv.FormatInt 1700000000123456789 10 = "1700000000123456789".
Proof. reflexivity. Qed.

Example FormatInt_negative : strconv.FormatInt (-42) 10 = "-42".
Proof. reflexivity. Qed.

Example FormatInt_zero : strconv.FormatInt 0 10 = "0".
Proof. reflexivity. Qed.

Example Join_entry_17 :
  filepath.Join ["data"; "traces"; "17"] = "data/traces/17".
Proof. reflexivity. Qed.

Example Join_skips_leading_empty :
  filepath.Join [""; "traces"; "17"] = "traces/17".
Proof. reflexivity. Qed.

Example Join_cleans_dotdot : filepath.Join ["data"; ".."; "17"] = "17".
Proof. reflexivity. Qed.

Example Join_cleans_inside :
  filepath.Join ["/a//b/./c/.."; ""; "17"] = "/a/b/17".
Proof. reflexivity. Qed.

Example Join_keeps_leading_dotdot : filepath.Join ["../.."; "x"] = "../../x".
Proof. reflexivity. Qed.

Example Join_dotdot_at_root : filepath.Join ["/.."; "x"] = "/x".
Proof. reflexivity. Qed.

Example Clean_empty : filepath.Clean "" = ".".
Proof. reflexivity. Qed.

Example Clean_up_and_out : filepath.Clean "a/../.." = "..".
Proof. reflexivity. Qed.

Example Dir_entry_17 : filepath.Dir "data/traces/17" = "data/traces".
Proof. reflexivity. Qed.

Example Dir_single : filepath.Dir "17" = ".".
Proof. reflexivity. Qed.

Example Dir_rooted : filepath.Dir "/17" = "/".
Proof. reflexivity. Qed.

Example resolve_relative :
  os.resolve (sample.fresh 17) "data/traces" = ["srv"; "data"; "traces"].
Proof. reflexivity. Qed.

Example resolve_parent :
  os.resolve (sample.fresh 17) "../data" = ["data"].
Proof. reflexivity. Qed.

(** A first request in an empty working directory: two directories are
    made, then the file is opened and written. *)
Example first_request_calls :
  trace (snd (Sink_Export the_sink sample.ctx "traces" sample.span
                (sample.fresh 17)))
  = [SysMkdir ["srv"; "data"] 493;
     SysMkdir ["srv"; "data"; "traces"] 493;
     SysOpen ["srv"; "data"; "traces"; "17"] 420;
     SysWrite ["srv"; "data"; "traces"; "17"] (list_byte_of_string "span")].
Proof. vm_compute. reflexivity. Qed.

Example first_request_stored :
  fst (logsServer_Export {| logs_sink := the_sink |} sample.ctx sample.span
         (sample.fresh 17))
  = inl {| collectorlogspb.partial_success := None |}
  /\ nodes (snd (logsServer_Export {| logs_sink := the_sink |} sample.ctx
                   sample.span (sample.fresh 17)))
       !! ["srv"; "data"; "logs"; "17"]
     = Some (File true (list_byte_of_string "span")).
Proof. split; vm_compute; reflexivity. Qed.

(** A regular file in the place of the storage root. *)
Example blocked_root :
  Sink_Export the_sink sample.ctx "logs" sample.span (sample.blocked 17)
  = (Some (wrapError "failed to create directory %q: %w" ["data/logs"]
             (PathError "mkdir" ["srv"; "data"] syscall.ENOTDIR)),
     sample.blocked 17).
Proof. vm_compute. reflexivity. Qed.

(** A process whose listener cannot bind. *)
Example listen_failure :
  main {| flags := FlagsOk;
          listen_err := Some (errorString "bind: address already in use");
          interrupted := false; serve_done := None; ctx_case_first := false |}
  = Some {| status := 1;
            stderr := [("%v" +:+ LF,
                        wrapError "failed to listen on %q: %w" ["localhost:3000"]
                          (errorString "bind: address already in use"))] |}.
Proof. reflexivity. Qed.

(** A server that is neither interrupted nor stopped keeps running. *)
Example keeps_serving :
  main {| flags := FlagsOk; listen_err := None; interrupted := false;
          serve_done := None; ctx_case_first := false |} = None.
Proof. reflexivity. Qed.

(* ===================================================================== *)
(** * Decimal rendering *)
(* ===================================================================== *)

Section Decimal.
Import strconv.

Lemma digit_cases (d : Z) :
  0 <= d < 10 ->
  d = 0 \/ d = 1 \/ d = 2 \/ d = 3 \/ d = 4 \/
  d = 5 \/ d = 6 \/ d = 7 \/ d = 8 \/ d = 9.
Proof. lia. Qed.

Lemma digit_val_char (d : Z) : 0 <= d < 10 -> digit_val (digit_char d) = d.
Proof.
  intros Hd. destruct (digit_cases d Hd) as [-> | [-> | [-> | [-> | [-> |
    [-> | [-> | [-> | [-> | ->]]]]]]]]]; reflexivity.
Qed.

Lemma is_digit_char (d : Z) : 0 <= d < 10 -> is_digit (digit_char d) = true.
Proof.
  intros Hd. destruct (digit_cases d Hd) as [-> | [-> | [-> | [-> | [-> |
    [-> | [-> | [-> | [-> | ->]]]]]]]]]; reflexivity.
Qed.

Lemma mod10_range (u : Z) : 0 <= u mod 10 < 10.
Proof. apply Z.mod_pos_bound. lia. Qed.

(** Reading back what [formatBits] wrote gives the number, as long as the
    fuel covers the binary length. *)
Lemma parse_formatBits (fuel : nat) :
  forall (u : Z) (buf : string),
    0 <= u < 2 ^ Z.of_nat fuel ->
    parse_digits (formatBits fuel u buf) 0 = parse_digits buf u.
Proof.
  induction fuel as [|fuel IH]; intros u buf Hu.
  - simpl in *. assert (u = 0) by lia. subst. reflexivity.
  - cbn [formatBits]. destruct (u <? 10) eqn:Hlt.
    + apply Z.ltb_lt in Hlt. cbn [parse_digits].
      rewrite Z.mod_small by lia. rewrite digit_val_char by lia.
      f_equal.
    + apply Z.ltb_ge in Hlt. rewrite IH.
      * cbn [parse_digits]. rewrite digit_val_char by apply mod10_range.
        f_equal. pose proof (Z.div_mod u 10). lia.
      * rewrite Nat2Z.inj_succ, Z.pow_succ_r in Hu by lia.
        split; [apply Z.div_pos; lia|].
        apply Z.div_lt_upper_bound; lia.
Qed.

Lemma digits_fuel_enough (u : Z) :
  0 <= u -> 0 <= u < 2 ^ Z.of_nat (digits_fuel u).
Proof.
  intros Hu. split; [assumption|]. unfold digits_fuel.
  rewrite Nat2Z.inj_succ, Z2Nat.id by apply Z.log2_nonneg.
  destruct (Z.eq_dec u 0) as [-> | Hne]; [reflexivity|].
  apply Z.log2_spec. lia.
Qed.

(** The first character written is a digit whenever at least one round of
    the loop runs. *)
Lemma formatBits_head (fuel : nat) :
  forall (u : Z) (c : ascii) (buf : string),
    is_digit c = true ->
    exists c' s, formatBits fuel u (String c buf) = String c' s
                 /\ is_digit c' = true.
Proof.
  induction fuel as [|fuel IH]; intros u c buf Hc.
  - exists c, buf. split; [reflexivity | assumption].
  - cbn [formatBits]. destruct (u <? 10).
    + eexists _, _. split; [reflexivity|].
      apply is_digit_char, mod10_range.
    + apply IH. apply is_digit_char, mod10_range.
Qed.

Lemma formatBits_S_head (fuel : nat) (u : Z) (buf : string) :
  exists c s, formatBits (S fuel) u buf = String c s /\ is_digit c = true.
Proof.
  cbn [formatBits]. destruct (u <? 10).
  - eexists _, _. split; [reflexivity|]. apply is_digit_char, mod10_range.
  - apply formatBits_head. apply is_digit_char, mod10_range.
Qed.

(** [FormatInt] writes the integer in base 10: reading it back as a
    decimal number gives the integer. *)
Lemma ParseInt_FormatInt (i : Z) : ParseInt (FormatInt i 10) = i.
Proof.
  unfold FormatInt. destruct (i <? 0) eqn:Hneg.
  - apply Z.ltb_lt in Hneg. cbn [ParseInt].
    rewrite parse_formatBits by (apply digits_fuel_enough; lia).
    cbn [parse_digits]. lia.
  - apply Z.ltb_ge in Hneg.
    destruct (formatBits_S_head (Z.to_nat (Z.log2 i)) i EmptyString)
      as (c & s & Heq & Hc).
    assert (Hparse : ParseInt (String c s) = parse_digits (String c s) 0).
    { unfold ParseInt.
      destruct c as [[] [] [] [] [] [] [] []]; try reflexivity;
        discriminate Hc. }
    unfold digits_fuel. rewrite Heq, Hparse, <- Heq.
    fold (digits_fuel i).
    rewrite parse_formatBits by (apply digits_fuel_enough; lia).
    reflexivity.
Qed.

Lemma FormatInt_inj (i j : Z) : FormatInt i 10 = FormatInt j 10 -> i = j.
Proof.
  intros Heq. rewrite <- (ParseInt_FormatInt i), <- (ParseInt_FormatInt j).
  now rewrite Heq.
Qed.

End Decimal.

Section DecimalNames.
Import strconv filepath.

Lemma formatBits_all_digits (fuel : nat) :
  forall (u : Z) (buf : string),
    all_digits buf = true -> all_digits (formatBits fuel u buf) = true.
Proof.
  induction fuel as [|fuel IH]; intros u buf Hbuf; [assumption|].
  assert (Hstep : all_digits (String (digit_char (u mod 10)) buf) = true).
  { cbn [all_digits]. rewrite is_digit_char by apply mod10_range.
    assumption. }
  cbn [formatBits]. destruct (u <? 10); [assumption | now apply IH].
Qed.

Lemma digit_not_sep (c : ascii) :
  is_digit c = true -> IsPathSeparator c = false.
Proof.
  destruct c as [[] [] [] [] [] [] [] []]; intros Hc;
    try reflexivity; discriminate Hc.
Qed.

Lemma all_digits_no_sep (s : string) :
  all_digits s = true -> has_sep s = false.
Proof.
  induction s as [|c s IH]; [reflexivity|]. cbn [all_digits has_sep].
  intros [Hc Hs]%andb_true_iff. now rewrite digit_not_sep, IH.
Qed.

(** A rendered timestamp is a path element of its own. *)
Lemma FormatInt_plain (i : Z) : plain (FormatInt i 10).
Proof.
  unfold FormatInt. destruct (i <? 0).
  - repeat split; try discriminate.
    cbn [has_sep]. rewrite all_digits_no_sep.
    + reflexivity.
    + now apply formatBits_all_digits.
  - destruct (formatBits_S_head (Z.to_nat (Z.log2 i)) i EmptyString)
      as (c & s & Heq & Hc).
    assert (Hall : all_digits (formatBits (digits_fuel i) i EmptyString) = true)
      by now apply formatBits_all_digits.
    unfold digits_fuel in *. rewrite Heq in *.
    repeat split.
    + discriminate.
    + now apply all_digits_no_sep.
    + intros [= -> _]. discriminate Hc.
    + intros [= -> _]. discriminate Hc.
Qed.

End DecimalNames.

(* ===================================================================== *)
(** * Path names *)
(* ===================================================================== *)

Section Paths.
Import filepath.

Lemma append_cons (x : ascii) (a b : string) :
  String x a +:+ b = String x (a +:+ b).
Proof. reflexivity. Qed.

Lemma append_assoc (a b c : string) : (a +:+ b) +:+ c = a +:+ (b +:+ c).
Proof.
  induction a as [|x a IH]; [reflexivity|].
  rewrite !append_cons. f_equal. exact IH.
Qed.

Lemma split_nonempty (s : string) : split s <> [].
Proof.
  induction s as [|c s IH]; [discriminate|]. cbn [split].
  destruct (IsPathSeparator c); [discriminate|].
  destruct (split s); discriminate.
Qed.

Lemma split_app_sep (a b : string) :
  split (a +:+ String Separator b) = split a ++ split b.
Proof.
  induction a as [|c a IH]; [reflexivity|].
  rewrite append_cons. cbn [split]. rewrite IH.
  destruct (IsPathSeparator c); [reflexivity|].
  pose proof (split_nonempty a) as Hne.
  destruct (split a); [contradiction | reflexivity].
Qed.

Lemma split_no_sep (s : string) : has_sep s = false -> split s = [s].
Proof.
  induction s as [|c s IH]; [reflexivity|]. cbn [has_sep split].
  intros [Hc Hs]%orb_false_iff. now rewrite Hc, IH.
Qed.

Lemma has_sep_app_sep (a b : string) :
  has_sep (a +:+ String Separator b) = true.
Proof.
  induction a as [|c a IH]; [reflexivity|].
  rewrite append_cons. cbn [has_sep]. rewrite IH. apply orb_true_r.
Qed.

Lemma up_to_last_sep_app (a e : string) :
  has_sep e = false ->
  up_to_last_sep (a +:+ String Separator e) = a +:+ String Separator EmptyString.
Proof.
  intros He. induction a as [|c a IH].
  - change (up_to_last_sep (String Separator e) = String Separator EmptyString).
    cbn [up_to_last_sep]. now rewrite He.
  - rewrite !append_cons. cbn [up_to_last_sep].
    now rewrite has_sep_app_sep, IH.
Qed.

Lemma rooted_app (a b : string) :
  a <> EmptyString -> rooted (a +:+ b) = rooted a.
Proof. destruct a; [contradiction | reflexivity]. Qed.

Lemma app_sep_nonempty (a b : string) : a +:+ String Separator b <> EmptyString.
Proof. destruct a; discriminate. Qed.

Lemma plain_cases (e : string) :
  plain e ->
  bool_decide (e = EmptyString) = false /\ bool_decide (e = ".") = false
  /\ bool_decide (e = "..") = false.
Proof.
  intros (H1 & _ & H2 & H3).
  repeat split; now apply bool_decide_eq_false.
Qed.

Lemma clean_step_plain (r : bool) (out : list string) (e : string) :
  plain e -> clean_step r out e = e :: out.
Proof.
  intros (H1 & H2 & H3)%plain_cases. unfold clean_step.
  now rewrite H1, H2, H3.
Qed.

Lemma clean_elems_snoc (r : bool) (elems : list string) (e : string) :
  plain e -> clean_elems r (elems ++ [e]) = clean_elems r elems ++ [e].
Proof.
  intros He. unfold clean_elems. rewrite fold_left_app. cbn [fold_left].
  now rewrite clean_step_plain.
Qed.

Lemma clean_elems_trailing (r : bool) (elems : list string) :
  clean_elems r (elems ++ [EmptyString]) = clean_elems r elems.
Proof. unfold clean_elems. now rewrite fold_left_app. Qed.

Lemma join_snoc (xs : list string) (e : string) :
  xs <> [] -> join (xs ++ [e]) = join xs +:+ String Separator e.
Proof.
  induction xs as [|x xs IH]; [contradiction|]. intros _.
  destruct xs as [|y xs]; [reflexivity|].
  change (join ((x :: y :: xs) ++ [e]))
    with (x +:+ String Separator (join ((y :: xs) ++ [e]))).
  rewrite IH by discriminate.
  change (join (x :: y :: xs)) with (x +:+ String Separator (join (y :: xs))).
  now rewrite append_assoc.
Qed.

Lemma render_snoc (r : bool) (xs : list string) (e : string) :
  xs <> [] -> render r (xs ++ [e]) = render r xs +:+ String Separator e.
Proof.
  intros Hne. destruct xs as [|x xs]; [contradiction|].
  assert (Hjoin : join ((x :: xs) ++ [e])
                  = join (x :: xs) +:+ String Separator e)
    by now apply join_snoc.
  unfold render. cbn [app] in *. rewrite Hjoin.
  now rewrite append_assoc.
Qed.

Lemma proper_root_nonempty (root : string) :
  proper_root root -> root <> EmptyString.
Proof. intros (Hc & _ & _) ->. discriminate Hc. Qed.

Lemma proper_root_elems (root : string) :
  proper_root root -> clean_elems (rooted root) (split root) <> [].
Proof.
  intros (Hc & Hdot & Hroot) Hnil.
  destruct root as [|c root]; [discriminate Hc|].
  unfold Clean in Hc. rewrite Hnil in Hc. cbn [render] in Hc.
  destruct (rooted (String c root)); congruence.
Qed.

(** Appending a plain element to a proper root keeps the path clean. *)
Lemma Clean_snoc (root e : string) :
  proper_root root -> plain e ->
  Clean (root +:+ String Separator e) = root +:+ String Separator e.
Proof.
  intros Hroot He.
  pose proof (proper_root_nonempty _ Hroot) as Hne.
  pose proof (proper_root_elems _ Hroot) as Helems.
  destruct Hroot as (Hc & _ & _).
  unfold Clean. destruct (root +:+ String Separator e) eqn:Happ.
  { now apply app_sep_nonempty in Happ. }
  rewrite <- Happ. rewrite rooted_app by assumption.
  rewrite split_app_sep, (split_no_sep e) by apply He.
  rewrite clean_elems_snoc, render_snoc by assumption.
  f_equal. destruct root; [contradiction | exact Hc].
Qed.

Lemma proper_root_snoc (root e : string) :
  proper_root root -> plain e -> proper_root (root +:+ String Separator e).
Proof.
  intros Hroot He. split; [now apply Clean_snoc|].
  pose proof (proper_root_nonempty _ Hroot) as Hne.
  destruct root as [|c root]; [contradiction|].
  rewrite append_cons.
  split; intros [= _ Habs]; now apply app_sep_nonempty in Habs.
Qed.

Lemma Clean_trailing_sep (root : string) :
  root <> EmptyString ->
  Clean (root +:+ String Separator EmptyString) = Clean root.
Proof.
  intros Hne. unfold Clean.
  destruct (root +:+ String Separator EmptyString) eqn:Happ.
  { now apply app_sep_nonempty in Happ. }
  rewrite <- Happ, rooted_app, split_app_sep by assumption.
  cbn [split]. rewrite clean_elems_trailing.
  destruct root; [contradiction | reflexivity].
Qed.

Lemma entry_path_assoc (root stream n : string) :
  root +:+ String Separator (stream +:+ String Separator n)
  = (root +:+ String Separator stream) +:+ String Separator n.
Proof. now rewrite append_assoc, append_cons. Qed.

(** The path [Sink.Export] computes for a proper root and a plain stream
    name is the three parts, separated by slashes. *)
Lemma Join_entry (root stream : string) (t : Z) :
  proper_root root -> plain stream ->
  Join [root; stream; strconv.FormatInt t 10] = entry_path root stream t.
Proof.
  intros Hroot Hs.
  pose proof (proper_root_nonempty _ Hroot) as Hne.
  unfold entry_path. cbn [Join].
  rewrite bool_decide_eq_false_2 by assumption.
  cbn [join].
  change ("/" +:+ stream +:+ "/" +:+ strconv.FormatInt t 10)
    with (String Separator (stream +:+ String Separator (strconv.FormatInt t 10))).
  rewrite entry_path_assoc.
  apply Clean_snoc; [now apply proper_root_snoc | apply FormatInt_plain].
Qed.

Lemma Dir_entry (root stream : string) (t : Z) :
  proper_root root -> plain stream ->
  Dir (entry_path root stream t) = root +:+ String Separator stream.
Proof.
  intros Hroot Hs. unfold entry_path, Dir.
  change ("/" +:+ stream +:+ "/" +:+ strconv.FormatInt t 10)
    with (String Separator (stream +:+ String Separator (strconv.FormatInt t 10))).
  rewrite entry_path_assoc.
  rewrite up_to_last_sep_app by apply FormatInt_plain.
  rewrite Clean_trailing_sep by apply app_sep_nonempty.
  now apply Clean_snoc.
Qed.

Lemma walk_plain (out : list string) (e : string) :
  plain e -> os.walk out e = e :: out.
Proof.
  intros (H1 & H2 & H3)%plain_cases. unfold os.walk.
  now rewrite H1, H2, H3.
Qed.

Lemma resolve_snoc (w : World) (a e : string) :
  a <> EmptyString -> plain e ->
  os.resolve w (a +:+ String Separator e) = os.resolve w a ++ [e].
Proof.
  intros Hne He. unfold os.resolve.
  rewrite rooted_app, split_app_sep, (split_no_sep e) by (assumption || apply He).
  rewrite fold_left_app. cbn [fold_left].
  now rewrite walk_plain.
Qed.

(** Where the stream directory and the entry lie in the file tree. *)
Lemma resolve_stream_dir (w : World) (root stream : string) :
  proper_root root -> plain stream ->
  os.resolve w (root +:+ String Separator stream)
  = os.resolve w root ++ [stream].
Proof.
  intros Hroot Hs. apply resolve_snoc; [|assumption].
  now apply proper_root_nonempty.
Qed.

Lemma resolve_entry (w : World) (root stream : string) (t : Z) :
  proper_root root -> plain stream ->
  os.resolve w (entry_path root stream t)
  = os.resolve w root ++ [stream; strconv.FormatInt t 10].
Proof.
  intros Hroot Hs. unfold entry_path.
  change ("/" +:+ stream +:+ "/" +:+ strconv.FormatInt t 10)
    with (String Separator (stream +:+ String Separator (strconv.FormatInt t 10))).
  rewrite entry_path_assoc.
  rewrite resolve_snoc by (apply app_sep_nonempty || apply FormatInt_plain).
  rewrite resolve_stream_dir by assumption.
  now rewrite <- app_assoc.
Qed.

End Paths.

(* ===================================================================== *)
(** * Directories and files *)
(* ===================================================================== *)

Section FileSystem.
Import syscall.

Lemma same_env_refl (w : World) : same_env w w.
Proof. repeat split. Qed.

Lemma same_env_trans (w1 w2 w3 : World) :
  same_env w1 w2 -> same_env w2 w3 -> same_env w1 w3.
Proof. unfold same_env. intros (?&?&?) (?&?&?). repeat split; congruence. Qed.

Lemma resolve_same_cwd (w w' : World) (path : string) :
  cwd w' = cwd w -> os.resolve w' path = os.resolve w path.
Proof. intros Hcwd. unfold os.resolve. now rewrite Hcwd. Qed.

Lemma parent_snoc (k : list string) (c : string) : os.parent (k ++ [c]) = k.
Proof. unfold os.parent. apply removelast_last. Qed.

Lemma kept_refl (w : World) (target k : list string) :
  kept_or_new_dir w w target k.
Proof. now left. Qed.

Lemma kept_weaken (w w' : World) (t1 t2 k : list string) :
  t1 `prefix_of` t2 ->
  kept_or_new_dir w w' t1 k -> kept_or_new_dir w w' t2 k.
Proof.
  intros Hpre [Heq | (Hn & Hd & Hk)]; [now left | right].
  repeat split; try assumption. now transitivity t1.
Qed.

(** What [Mkdir] does. *)
Lemma Mkdir_spec (k : list string) (perm : Z) (w : World) :
  let '(e, w') := os.Mkdir k perm w in
  same_env w w' /\ free w' = free w
  /\ trace w' = trace w ++ [SysMkdir k perm]
  /\ match e with
     | None => nodes w !! k = None
               /\ nodes w' = <[k := Dir (os.owner_writable perm)]> (nodes w)
     | Some _ => nodes w' = nodes w
     end.
Proof.
  unfold os.Mkdir. cbn [nodes record_syscall].
  destruct (nodes w !! k) as [x|] eqn:Hk.
  { repeat split. }
  destruct (nodes w !! os.parent k) as [[[]|]|]; repeat split; assumption.
Qed.

(** What [MkdirAll] does, whether it succeeds or not: it only calls
    [Mkdir], only on the way to the target, and calls nothing when the
    target is there already; it leaves every existing node alone; and on
    success the target is a directory. *)
Lemma mkdirAll_spec (perm : Z) (rk : list string) :
  forall w : World,
    let '(e, w') := os.mkdirAll rk perm w in
    same_env w w' /\ free w' = free w
    /\ (exists calls,
          trace w' = trace w ++ calls
          /\ Forall (fun c => is_mkdir c = true
                              /\ syscall_path c `prefix_of` rev rk) calls
          /\ (is_dir (nodes w !! rev rk) = true -> calls = []))
    /\ (forall k, kept_or_new_dir w w' (rev rk) k)
    /\ (e = None -> is_dir (nodes w' !! rev rk) = true).
Proof.
  assert (Hstay : forall (w : World) (k : list string),
             exists calls,
               trace w = trace w ++ calls
               /\ Forall (fun c => is_mkdir c = true
                                   /\ syscall_path c `prefix_of` k) calls
               /\ (is_dir (nodes w !! k) = true -> calls = [])).
  { intros w k. exists []. rewrite app_nil_r. repeat split; constructor. }
  induction rk as [|c rk IH]; intros w.
  - cbn [os.mkdirAll rev].
    destruct (nodes w !! []) as [[wr|wr d]|] eqn:Hroot.
    + refine (conj (same_env_refl w) (conj eq_refl (conj _ (conj _ _)))).
      * rewrite <- Hroot. apply Hstay.
      * intros k. apply kept_refl.
      * intros _. now rewrite Hroot.
    + refine (conj (same_env_refl w) (conj eq_refl (conj _ (conj _ _)))).
      * rewrite <- Hroot. apply Hstay.
      * intros k. apply kept_refl.
      * discriminate.
    + pose proof (Mkdir_spec [] perm w) as Hmk.
      destruct (os.Mkdir [] perm w) as [e w2].
      destruct Hmk as (Henv & Hfree & Htrace & Hnodes).
      assert (Hcalls : exists calls,
                 trace w2 = trace w ++ calls
                 /\ Forall (fun c => is_mkdir c = true
                                     /\ syscall_path c `prefix_of` []) calls
                 /\ (is_dir None = true -> calls = [])).
      { exists [SysMkdir [] perm]. repeat split; [assumption| |].
        - constructor; [|constructor]. split; reflexivity.
        - discriminate. }
      destruct e as [e|].
      * assert (Hkept : forall k, kept_or_new_dir w w2 [] k)
          by (intros k; left; now rewrite Hnodes).
        rewrite Hnodes, Hroot.
        refine (conj Henv (conj Hfree (conj Hcalls (conj Hkept _)))).
        discriminate.
      * destruct Hnodes as (_ & Hnodes).
        refine (conj Henv (conj Hfree (conj Hcalls (conj _ _)))).
        -- intros k. destruct (decide (k = [])) as [-> | Hne].
           ++ right. rewrite Hnodes, lookup_insert_eq.
              repeat split; [assumption | reflexivity].
           ++ left. now rewrite Hnodes, lookup_insert_ne.
        -- intros _. now rewrite Hnodes, lookup_insert_eq.
  - cbn [os.mkdirAll]. set (k := rev (c :: rk)).
    assert (Hpre : rev rk `prefix_of` k).
    { subst k. cbn [rev]. now exists [c]. }
    destruct (nodes w !! k) as [[wr|wr d]|] eqn:Hk.
    + refine (conj (same_env_refl w) (conj eq_refl (conj _ (conj _ _)))).
      * rewrite <- Hk. apply Hstay.
      * intros k'. apply kept_refl.
      * intros _. now rewrite Hk.
    + refine (conj (same_env_refl w) (conj eq_refl (conj _ (conj _ _)))).
      * rewrite <- Hk. apply Hstay.
      * intros k'. apply kept_refl.
      * discriminate.
    + specialize (IH w). destruct (os.mkdirAll rk perm w) as [perr w1].
      destruct IH as (Henv1 & Hfree1 & (calls1 & Htr1 & Hall1 & _) & Hkept1 & Hdir1).
      assert (Hall1' : Forall (fun c => is_mkdir c = true
                                       /\ syscall_path c `prefix_of` k) calls1).
      { eapply Forall_impl; [exact Hall1|]. cbn beta.
        intros x (? & ?). split; [assumption | now transitivity (rev rk)]. }
      destruct perr as [err|].
      { refine (conj Henv1 (conj Hfree1 (conj _ (conj _ _)))).
        - exists calls1. repeat split; try assumption. discriminate.
        - intros k'. eapply kept_weaken; [exact Hpre | apply Hkept1].
        - discriminate. }
      pose proof (Mkdir_spec k perm w1) as Hmk.
      destruct (os.Mkdir k perm w1) as [e w2].
      destruct Hmk as (Henv2 & Hfree2 & Htrace2 & Hnodes2).
      assert (Henv : same_env w w2) by (eapply same_env_trans; eassumption).
      assert (Hfree : free w2 = free w) by congruence.
      assert (Hcalls : exists calls,
                 trace w2 = trace w ++ calls
                 /\ Forall (fun c => is_mkdir c = true
                                     /\ syscall_path c `prefix_of` k) calls
                 /\ (is_dir None = true -> calls = [])).
      { exists (calls1 ++ [SysMkdir k perm]). repeat split.
        - now rewrite Htrace2, Htr1, app_assoc.
        - apply Forall_app. split; [assumption|].
          constructor; [|constructor]. split; reflexivity.
        - discriminate. }
      destruct e as [e|].
      * assert (Hkept : forall k', kept_or_new_dir w w2 k k').
        { intros k'. unfold kept_or_new_dir. rewrite Hnodes2.
          eapply kept_weaken; [exact Hpre | apply Hkept1]. }
        destruct (nodes w2 !! k) as [[wr|wr d]|] eqn:Hk2;
          refine (conj Henv (conj Hfree (conj Hcalls (conj Hkept _))));
          try discriminate.
        intros _. now rewrite Hk2.
      * destruct Hnodes2 as (Hnone & Hnodes2).
        refine (conj Henv (conj Hfree (conj Hcalls (conj _ _)))).
        -- intros k'. destruct (decide (k' = k)) as [-> | Hne].
           ++ right. rewrite Hnodes2, lookup_insert_eq.
              repeat split; [assumption | reflexivity].
           ++ destruct (Hkept1 k') as [Heq | (Hn & Hd & Hp)].
              ** left. now rewrite Hnodes2, lookup_insert_ne.
              ** right. rewrite Hnodes2, lookup_insert_ne by congruence.
                 repeat split; try assumption. now transitivity (rev rk).
        -- intros _. now rewrite Hnodes2, lookup_insert_eq.
Qed.

(** What [WriteFile] does.  If the file cannot be opened nothing
    changes.  Otherwise the file holds as much of [data] as there was
    room for, and the call succeeds exactly when that is all of it. *)
Lemma WriteFile_spec (name : string) (data : list byte) (perm : Z) (w : World) :
  let k := os.resolve w name in
  let n := Nat.min (length data) (room_for w k) in
  let wr := if is_file (nodes w !! k) then true else os.owner_writable perm in
  let '(e, w') := os.WriteFile name data perm w in
  same_env w w'
  /\ if can_open w k then
       e = (if (length data <=? room_for w k)%nat then None
            else Some (PathError "write" k ENOSPC))
       /\ nodes w' = <[k := File wr (take n data)]> (nodes w)
       /\ free w' = (room_for w k - n)%nat
       /\ trace w' = trace w ++ [SysOpen k perm; SysWrite k data]
     else
       (exists errno, e = Some (PathError "open" k errno))
       /\ nodes w' = nodes w /\ free w' = free w
       /\ trace w' = trace w ++ [SysOpen k perm].
Proof.
  intros k n wr. subst n wr.
  unfold os.WriteFile, bind, os.OpenFile_trunc, can_open, room_for.
  fold k. cbn [nodes record_syscall].
  destruct (nodes w !! k) as [[dw|fw old]|] eqn:Hk; cbn [is_file file_data].
  - cbn [ret]. split; [repeat split|]. repeat split. now eexists.
  - destruct fw; cbn [ret].
    + unfold os.Write. cbn [nodes record_syscall set_free set_nodes free trace].
      rewrite lookup_insert_eq. cbn [app].
      destruct (length data <=? free w + length old)%nat;
        (split; [repeat split|]); repeat split;
        cbn [nodes trace set_free set_nodes record_syscall];
        try (now rewrite insert_insert_eq);
        try (now rewrite <- app_assoc).
    + split; [repeat split|]. repeat split. now eexists.
  - destruct (nodes w !! os.parent k) as [[[]|]|] eqn:Hp; cbn [ret].
    + unfold os.Write. cbn [nodes record_syscall set_free set_nodes free trace].
      rewrite lookup_insert_eq. cbn [app].
      destruct (length data <=? free w)%nat;
        (split; [repeat split|]); repeat split;
        cbn [nodes trace set_free set_nodes record_syscall];
        try (now rewrite insert_insert_eq);
        try (now rewrite <- app_assoc).
    + split; [repeat split|]. repeat split. now eexists.
    + split; [repeat split|]. repeat split. now eexists.
    + split; [repeat split|]. repeat split. now eexists.
Qed.

End FileSystem.

(* ===================================================================== *)
(** * [Sink.Export], step by step *)
(* ===================================================================== *)

Section SinkSteps.
Context {M : Type} `{Message M}.
Import syscall.

Lemma owner_writable_0644 : os.owner_writable 420 = true.
Proof. reflexivity. Qed.

Lemma owner_writable_0755 : os.owner_writable 493 = true.
Proof. reflexivity. Qed.

(** With a proper root and a plain stream name the paths are known, and
    [Sink.Export] is its three steps in a row. *)
Lemma Sink_Export_unfold (s : Sink) (ctx : context.Context)
    (stream : string) (msg : M) (w : World) :
  proper_root (dir s) -> filepath.plain stream ->
  let d := dir s +:+ String filepath.Separator stream in
  let p := entry_path (dir s) stream (now w) in
  Sink_Export s ctx stream msg w =
    let '(emk, w1) :=
      os.mkdirAll (rev (os.resolve w (dir s) ++ [stream])) 493 w in
    match emk with
    | Some err =>
        (Some (fmt_Errorf "failed to create directory %q: %w" [d] err), w1)
    | None =>
        match proto_Marshal msg with
        | inr err =>
            (Some (fmt_Errorf "failed to serialize message: %w" [] err), w1)
        | inl b =>
            let '(ew, w2) := os.WriteFile p b 420 w1 in
            (match ew with
             | Some err =>
                 Some (fmt_Errorf "failed to write file %q: %w" [p] err)
             | None => None
             end, w2)
        end
    end.
Proof.
  intros Hroot Hs d p. subst d p.
  unfold Sink_Export, bind, time.Now. cbn [time.UnixNano].
  rewrite Join_entry, Dir_entry by assumption.
  unfold os.MkdirAll. rewrite resolve_stream_dir by assumption.
  destruct (os.mkdirAll _ 493 w) as [[err|] w1]; [reflexivity|].
  destruct (proto_Marshal msg) as [b|err]; [|reflexivity].
  destruct (os.WriteFile _ b 420 w1) as [[err|] w2]; reflexivity.
Qed.

(** Everything one call of [Sink.Export] can do.  [w1] is the world after
    the directory step; the four cases are: the directory could not be
    made, the message could not be encoded, the file could not be opened,
    the file was opened and written to (completely or not). *)
Lemma Sink_Export_spec (s : Sink) (ctx : context.Context)
    (stream : string) (msg : M) (w : World) :
  proper_root (dir s) -> filepath.plain stream ->
  let kd := os.resolve w (dir s) ++ [stream] in
  let ke := os.resolve w (dir s) ++ [stream; strconv.FormatInt (now w) 10] in
  let d := dir s +:+ String filepath.Separator stream in
  let p := entry_path (dir s) stream (now w) in
  let '(e, w') := Sink_Export s ctx stream msg w in
  exists (w1 : World) (mkdirs : list Syscall),
    same_env w w1 /\ same_env w1 w' /\ free w1 = free w
    /\ trace w1 = trace w ++ mkdirs
    /\ Forall (fun c => is_mkdir c = true
                        /\ syscall_path c `prefix_of` kd) mkdirs
    /\ (is_dir (nodes w !! kd) = true -> mkdirs = [])
    /\ (forall k, kept_or_new_dir w w1 kd k)
    /\ ((exists err,
           e = Some (fmt_Errorf "failed to create directory %q: %w" [d] err)
           /\ w' = w1)
        \/ (is_dir (nodes w1 !! kd) = true
            /\ ((exists err,
                   proto_Marshal msg = inr err
                   /\ e = Some (fmt_Errorf "failed to serialize message: %w"
                                  [] err)
                   /\ w' = w1)
                \/ (exists b,
                      proto_Marshal msg = inl b
                      /\ ((can_open w1 ke = false
                           /\ (exists errno,
                                 e = Some (fmt_Errorf
                                             "failed to write file %q: %w" [p]
                                             (PathError "open" ke errno)))
                           /\ nodes w' = nodes w1 /\ free w' = free w1
                           /\ trace w' = trace w1 ++ [SysOpen ke 420])
                          \/ (can_open w1 ke = true
                              /\ e = (if (length b <=? room_for w1 ke)%nat
                                      then None
                                      else Some (fmt_Errorf
                                             "failed to write file %q: %w" [p]
                                             (PathError "write" ke ENOSPC)))
                              /\ nodes w' =
                                   <[ke := File true
                                      (take (Nat.min (length b) (room_for w1 ke)) b)]>
                                     (nodes w1)
                              /\ free w' =
                                   (room_for w1 ke
                                    - Nat.min (length b) (room_for w1 ke))%nat
                              /\ trace w' =
                                   trace w1 ++ [SysOpen ke 420; SysWrite ke b])))))).
Proof.
  intros Hroot Hs kd ke d p.
  rewrite Sink_Export_unfold by assumption. fold kd d p.
  pose proof (mkdirAll_spec 493 (rev kd) w) as Hmk.
  rewrite rev_involutive in Hmk.
  destruct (os.mkdirAll (rev kd) 493 w) as [emk w1].
  destruct Hmk as (Henv1 & Hfree1 & (mkdirs & Htr & Hall & Hnone) & Hkept & Hdir).
  destruct emk as [err|].
  { exists w1, mkdirs. repeat split; try apply Henv1; try assumption.
    left. now exists err. }
  specialize (Hdir eq_refl).
  destruct (proto_Marshal msg) as [b|err] eqn:Hmarshal.
  2:{ exists w1, mkdirs. repeat split; try apply Henv1; try assumption.
      right. split; [assumption|]. left. now exists err. }
  pose proof (WriteFile_spec p b 420 w1) as Hwr. cbn zeta in Hwr.
  assert (Hke : os.resolve w1 p = ke).
  { subst p ke. rewrite (resolve_same_cwd w) by apply Henv1.
    now apply resolve_entry. }
  rewrite Hke in Hwr.
  destruct (os.WriteFile p b 420 w1) as [ew w2].
  destruct Hwr as (Henv2 & Hwr).
  exists w1, mkdirs. repeat split; try apply Henv1; try apply Henv2;
    try assumption.
  right. split; [assumption|]. right. exists b. split; [reflexivity|].
  destruct (can_open w1 ke) eqn:Hopen.
  - right. destruct Hwr as (-> & Hnodes & Hfree & Htrace).
    split; [reflexivity|]. repeat split; try assumption.
    + now destruct (length b <=? room_for w1 ke)%nat.
    + rewrite Hnodes. rewrite owner_writable_0644.
      now destruct (is_file (nodes w1 !! ke)).
  - left. destruct Hwr as ((errno & ->) & Hnodes & Hfree & Htrace).
    split; [reflexivity|]. repeat split; try assumption. now exists errno.
Qed.

End SinkSteps.

(* ===================================================================== *)
(** * The handlers *)
(* ===================================================================== *)

Section Handlers.
Context {ExportTraceServiceRequest : Type} `{Message ExportTraceServiceRequest}.
Context {ExportMetricsServiceRequest : Type} `{Message ExportMetricsServiceRequest}.
Context {ExportLogsServiceRequest : Type} `{Message ExportLogsServiceRequest}.

Lemma traceServer_Export_unfold (s : traceServer) (ctx : context.Context)
    (req : ExportTraceServiceRequest) (w : World) :
  traceServer_Export s ctx req w =
    let r := Sink_Export (trace_sink s) ctx "traces" req
               (logged "trace.Export %v" (prototext_Format req) w) in
    (match fst r with
     | Some _ => inr generic_failure
     | None => inl {| collectortracepb.partial_success := None |}
     end, snd r).
Proof.
  unfold traceServer_Export, bind, klog.Infof, logged.
  destruct (Sink_Export _ _ _ _ _) as [[e|] w']; reflexivity.
Qed.

Lemma metricsServer_Export_unfold (s : metricsServer) (ctx : context.Context)
    (req : ExportMetricsServiceRequest) (w : World) :
  metricsServer_Export s ctx req w =
    let r := Sink_Export (metrics_sink s) ctx "metrics" req
               (logged "metrics.Export %v" (prototext_Format req) w) in
    (match fst r with
     | Some _ => inr generic_failure
     | None => inl {| collectormetricspb.partial_success := None |}
     end, snd r).
Proof.
  unfold metricsServer_Export, bind, klog.Infof, logged.
  destruct (Sink_Export _ _ _ _ _) as [[e|] w']; reflexivity.
Qed.

Lemma logsServer_Export_unfold (s : logsServer) (ctx : context.Context)
    (req : ExportLogsServiceRequest) (w : World) :
  logsServer_Export s ctx req w =
    let r := Sink_Export (logs_sink s) ctx "logs" req
               (logged "logs.Export %v" (prototext_Format req) w) in
    (match fst r with
     | Some _ => inr generic_failure
     | None => inl {| collectorlogspb.partial_success := None |}
     end, snd r).
Proof.
  unfold logsServer_Export, bind, klog.Infof, logged.
  destruct (Sink_Export _ _ _ _ _) as [[e|] w']; reflexivity.
Qed.

End Handlers.

Section SinkResult.
Context {M : Type} `{Message M}.

(** [Sink.Export] returns nil exactly when its three steps succeed. *)
Lemma Sink_Export_ok_iff (s : Sink) (ctx : context.Context)
    (stream : string) (msg : M) (w : World) :
  fst (Sink_Export s ctx stream msg w) = None
  <-> persist_steps_ok s stream msg w.
Proof.
  unfold Sink_Export, persist_steps_ok, bind, time.Now.
  cbn [time.UnixNano].
  destruct (os.MkdirAll _ 493 w) as [[err|] w1]; cbn [fst snd ret].
  { split; [discriminate | intros [? _]; discriminate]. }
  destruct (proto_Marshal msg) as [b|err]; cbn [fst ret].
  2:{ split; [discriminate | intros [_ (b & ? & _)]; discriminate]. }
  destruct (os.WriteFile _ b 420 w1) as [[err|] w2] eqn:Hwr; cbn [fst ret].
  - split; [discriminate|]. intros [_ (b' & [= <-] & Habs)].
    rewrite Hwr in Habs. discriminate.
  - split; [|reflexivity]. intros _. split; [reflexivity|].
    exists b. split; [reflexivity|]. now rewrite Hwr.
Qed.

End SinkResult.

(* ===================================================================== *)
(** * Properties of the ingestion service and of the sink *)
(* ===================================================================== *)

Lemma calls_since_app (w w' : World) (l : list Syscall) :
  trace w' = trace w ++ l -> calls_since w w' = l.
Proof. intros Heq. unfold calls_since. rewrite Heq. apply drop_app_length. Qed.

Lemma logged_since_app (w w' : World) (l : list LogEntry) :
  klog_out w' = klog_out w ++ l -> logged_since w w' = l.
Proof. intros Heq. unfold logged_since. rewrite Heq. apply drop_app_length. Qed.

Section ExportResult.
Context {ExportTraceServiceRequest : Type} `{Message ExportTraceServiceRequest}.
Context {ExportMetricsServiceRequest : Type} `{Message ExportMetricsServiceRequest}.
Context {ExportLogsServiceRequest : Type} `{Message ExportLogsServiceRequest}.

Lemma result_iff {R : Type} (empty : R) (e : option error) (ok : Prop) :
  (e = None <-> ok) ->
  let r : R + error :=
    match e with Some _ => inr generic_failure | None => inl empty end in
  (r = inl empty <-> ok) /\ (r = inr generic_failure <-> ~ ok).
Proof.
  intros Hiff. destruct e as [err|]; cbn zeta.
  - split; (split; [try discriminate|]).
    + intros Hok. apply Hiff in Hok. discriminate.
    + intros _ Hok. apply Hiff in Hok. discriminate.
    + reflexivity.
  - split; (split; [try discriminate|]).
    + intros _. now apply Hiff.
    + reflexivity.
    + intros Hnot. exfalso. apply Hnot. now apply Hiff.
Qed.

(** C1.  Each of the three [Export] operations returns the empty response
    of its signal type exactly when the three steps of persistence
    (directory, serialization, write) all succeed, and fails with an
    Internal status error exactly when one of them does not. *)
Theorem export_result_iff_persisted
    (ts : traceServer) (ms : metricsServer) (ls : logsServer)
    (ctx : context.Context)
    (treq : ExportTraceServiceRequest) (mreq : ExportMetricsServiceRequest)
    (lreq : ExportLogsServiceRequest) (w : World) :
  (let r := fst (traceServer_Export ts ctx treq w) in
   let ok := persist_steps_ok (trace_sink ts) "traces" treq
               (logged "trace.Export %v" (prototext_Format treq) w) in
   (r = inl {| collectortracepb.partial_success := None |} <-> ok)
   /\ (r = inr (statusError codes.Internal "error writing data") <-> ~ ok))
  /\ (let r := fst (metricsServer_Export ms ctx mreq w) in
      let ok := persist_steps_ok (metrics_sink ms) "metrics" mreq
                  (logged "metrics.Export %v" (prototext_Format mreq) w) in
      (r = inl {| collectormetricspb.partial_success := None |} <-> ok)
      /\ (r = inr (statusError codes.Internal "error writing data") <-> ~ ok))
  /\ (let r := fst (logsServer_Export ls ctx lreq w) in
      let ok := persist_steps_ok (logs_sink ls) "logs" lreq
                  (logged "logs.Export %v" (prototext_Format lreq) w) in
      (r = inl {| collectorlogspb.partial_success := None |} <-> ok)
      /\ (r = inr (statusError codes.Internal "error writing data") <-> ~ ok)).
Proof.
  rewrite traceServer_Export_unfold, metricsServer_Export_unfold,
    logsServer_Export_unfold.
  cbn zeta. cbn [fst]. fold generic_failure.
  split; [|split]; apply result_iff; apply Sink_Export_ok_iff.
Qed.

End ExportResult.

Section Cancellation.
Context {M : Type} `{Message M}.

(** C9.  [Sink.Export] does not look at its context: with any two
    contexts, cancelled or not, the same stream, message and world give
    the same result and the same final world, system calls included. *)
Theorem Sink_Export_ignores_context (s : Sink) (ctx1 ctx2 : context.Context)
    (stream : string) (msg : M) (w : World) :
  Sink_Export s ctx1 stream msg w = Sink_Export s ctx2 stream msg w.
Proof. reflexivity. Qed.

End Cancellation.

(** C10.  When the flags parse, the listener binds and an interrupt arrives
    while the server is serving, [run] returns the context's cancellation
    error, which is not nil, and [main] prints it and exits with status 1. *)
Theorem interrupt_exits_nonzero (env : Env) :
  flags env = FlagsOk ->
  listen_err env = None ->
  serve_done env = None ->
  interrupted env = true ->
  let ctx := signal.NotifyContext context.Background env in
  context.Err ctx = Some (errorString "context canceled")
  /\ run ctx env = Returns (context.Err ctx)
  /\ main env = Some {| status := 1;
                        stderr := [("%v" +:+ LF, errorString "context canceled")] |}.
Proof.
  intros Hflags Hlisten Hserve Hint.
  unfold main, run, flag_Parse, select_done_or_listenErr, signal.NotifyContext.
  rewrite Hflags, Hlisten, Hserve, Hint. cbn. repeat split.
Qed.

Lemma interrupt_exits_nonzero_witness :
  flags sample.interrupted_run = FlagsOk
  /\ listen_err sample.interrupted_run = None
  /\ serve_done sample.interrupted_run = None
  /\ interrupted sample.interrupted_run = true
  /\ main sample.interrupted_run
     = Some {| status := 1;
               stderr := [("%v" +:+ LF, errorString "context canceled")] |}.
Proof.
  refine (conj eq_refl (conj eq_refl (conj eq_refl (conj eq_refl _)))).
  apply (interrupt_exits_nonzero sample.interrupted_run); reflexivity.
Defined.

Section Destination.
Context {M : Type} `{Message M}.

(** C3.  For a proper storage root and a plain stream name, the path that
    [Sink.Export] computes is [<root>/<stream>/<n>] with [<n>] the clock
    reading written in base 10; that is the only path it opens or writes,
    and after a successful call the file there holds the serialized
    message. *)
Theorem destination_path (s : Sink) (ctx : context.Context)
    (stream : string) (msg : M) (w : World) :
  proper_root (dir s) -> filepath.plain stream ->
  let n := strconv.FormatInt (now w) 10 in
  let p := dir s +:+ "/" +:+ stream +:+ "/" +:+ n in
  let r := Sink_Export s ctx stream msg w in
  filepath.Join [dir s; stream; n] = p
  /\ strconv.ParseInt n = now w
  /\ os.resolve w p = os.resolve w (dir s) ++ [stream; n]
  /\ Forall (fun c => is_mkdir c = false -> syscall_path c = os.resolve w p)
       (calls_since w (snd r))
  /\ (fst r = None ->
      exists b, proto_Marshal msg = inl b
                /\ file_data (nodes (snd r) !! os.resolve w p) = Some b).
Proof.
  intros Hroot Hs n p r.
  assert (Hp : p = entry_path (dir s) stream (now w)) by reflexivity.
  assert (Hres : os.resolve w p = os.resolve w (dir s) ++ [stream; n]).
  { rewrite Hp. now apply resolve_entry. }
  split; [rewrite Hp; now apply Join_entry|].
  split; [apply ParseInt_FormatInt|].
  split; [exact Hres|].
  rewrite Hres. subst r.
  pose proof (Sink_Export_spec s ctx stream msg w Hroot Hs) as Hspec.
  cbn zeta in Hspec. fold n in Hspec.
  destruct (Sink_Export s ctx stream msg w) as [e w']. cbn [fst snd].
  destruct Hspec as (w1 & mkdirs & Henv1 & Henv2 & Hfree & Htr & Hall & _ & Hkept & Hcases).
  assert (Hmk : Forall (fun c => is_mkdir c = false ->
                   syscall_path c = os.resolve w (dir s) ++ [stream; n]) mkdirs).
  { eapply Forall_impl; [exact Hall|]. cbn beta. intros c [Hc _] Hc'.
    congruence. }
  destruct Hcases as [(err & -> & ->) | (Hdir & [(err & Hm & -> & ->) | (b & Hm & Hcases)])].
  - split; [|discriminate]. now rewrite (calls_since_app _ _ _ Htr).
  - split; [|discriminate]. now rewrite (calls_since_app _ _ _ Htr).
  - destruct Hcases as [(Hopen & (errno & ->) & Hn & Hf & Htr2)
                       | (Hopen & -> & Hn & Hf & Htr2)].
    + split; [|discriminate].
      rewrite Htr in Htr2. rewrite <- app_assoc in Htr2.
      rewrite (calls_since_app _ _ _ Htr2).
      apply Forall_app. split; [assumption|].
      constructor; [reflexivity | constructor].
    + split.
      * rewrite Htr in Htr2. rewrite <- app_assoc in Htr2.
        rewrite (calls_since_app _ _ _ Htr2).
        apply Forall_app. split; [assumption|].
        constructor; [reflexivity|]. constructor; [reflexivity | constructor].
      * intros Hok. exists b. split; [assumption|].
        rewrite Hn, lookup_insert_eq. cbn [file_data].
        destruct (length b <=? room_for w1 _)%nat eqn:Hfit; [|discriminate].
        apply Nat.leb_le in Hfit.
        now rewrite Nat.min_l, firstn_all by assumption.
Qed.

End Destination.

(** The sink of the program, the traces stream, a sample request. *)
Lemma destination_path_witness :
  proper_root (dir the_sink) /\ filepath.plain "traces"
  /\ filepath.Join [dir the_sink; "traces";
                    strconv.FormatInt (now (sample.fresh 17)) 10]
     = "data/traces/17".
Proof.
  assert (Hroot : proper_root (dir the_sink))
    by (repeat split; (reflexivity || discriminate)).
  assert (Hs : filepath.plain "traces")
    by (repeat split; (reflexivity || discriminate)).
  refine (conj Hroot (conj Hs _)).
  exact (proj1 (destination_path the_sink sample.ctx "traces" sample.gauge
                  (sample.fresh 17) Hroot Hs)).
Defined.

Section Diagnostics.
Context {M : Type} `{Message M}.

(** Whatever its arguments, [Sink.Export] leaves the clock, the working
    directory and the log alone. *)
Lemma Sink_Export_same_env (s : Sink) (ctx : context.Context)
    (stream : string) (msg : M) (w : World) :
  same_env w (snd (Sink_Export s ctx stream msg w)).
Proof.
  unfold Sink_Export, bind, time.Now, os.MkdirAll. cbn [time.UnixNano].
  match goal with
  | |- context [os.mkdirAll ?rk ?perm w] =>
      pose proof (mkdirAll_spec perm rk w) as Hmk;
      destruct (os.mkdirAll rk perm w) as [[err|] w1]
  end; destruct Hmk as (Henv1 & _); [exact Henv1|].
  destruct (proto_Marshal msg) as [b|err]; [|exact Henv1].
  match goal with
  | |- context [os.WriteFile ?p b ?perm w1] =>
      pose proof (WriteFile_spec p b perm w1) as Hwr;
      destruct (os.WriteFile p b perm w1) as [[err|] w2]
  end; destruct Hwr as (Henv2 & _); cbn [snd ret];
    eapply same_env_trans; eassumption.
Qed.

Lemma Sink_Export_logged (s : Sink) (ctx : context.Context)
    (stream op : string) (msg : M) (w : World) :
  logged_since w
    (snd (Sink_Export s ctx stream msg
            (logged op (prototext_Format msg) w)))
  = [{| severity := Info; format := op; args := [prototext_Format msg] |}].
Proof.
  apply logged_since_app.
  destruct (Sink_Export_same_env s ctx stream msg
              (logged op (prototext_Format msg) w)) as (_ & _ & ->).
  reflexivity.
Qed.

End Diagnostics.

Section CauseDiscarded.
Context {ExportTraceServiceRequest : Type} `{Message ExportTraceServiceRequest}.
Context {ExportMetricsServiceRequest : Type} `{Message ExportMetricsServiceRequest}.
Context {ExportLogsServiceRequest : Type} `{Message ExportLogsServiceRequest}.

(** C4, as amended.  When persistence fails, for whatever cause, the
    caller gets the one Internal status error with the fixed message
    [error writing data].  The cause itself is dropped: all that a call
    adds to the log, failed or not, is the line with the rendering of the
    request that is written before storage is attempted. *)
Theorem failure_cause_discarded
    (ts : traceServer) (ms : metricsServer) (ls : logsServer)
    (ctx : context.Context)
    (treq : ExportTraceServiceRequest) (mreq : ExportMetricsServiceRequest)
    (lreq : ExportLogsServiceRequest) (w : World) :
  ((forall cause,
       fst (Sink_Export (trace_sink ts) ctx "traces" treq
              (logged "trace.Export %v" (prototext_Format treq) w))
       = Some cause ->
       fst (traceServer_Export ts ctx treq w)
       = inr (statusError codes.Internal "error writing data"))
   /\ logged_since w (snd (traceServer_Export ts ctx treq w))
      = [{| severity := Info; format := "trace.Export %v";
            args := [prototext_Format treq] |}])
  /\ ((forall cause,
          fst (Sink_Export (metrics_sink ms) ctx "metrics" mreq
                 (logged "metrics.Export %v" (prototext_Format mreq) w))
          = Some cause ->
          fst (metricsServer_Export ms ctx mreq w)
          = inr (statusError codes.Internal "error writing data"))
      /\ logged_since w (snd (metricsServer_Export ms ctx mreq w))
         = [{| severity := Info; format := "metrics.Export %v";
               args := [prototext_Format mreq] |}])
  /\ ((forall cause,
          fst (Sink_Export (logs_sink ls) ctx "logs" lreq
                 (logged "logs.Export %v" (prototext_Format lreq) w))
          = Some cause ->
          fst (logsServer_Export ls ctx lreq w)
          = inr (statusError codes.Internal "error writing data"))
      /\ logged_since w (snd (logsServer_Export ls ctx lreq w))
         = [{| severity := Info; format := "logs.Export %v";
               args := [prototext_Format lreq] |}]).
Proof.
  rewrite traceServer_Export_unfold, metricsServer_Export_unfold,
    logsServer_Export_unfold.
  cbn zeta. cbn [fst snd].
  split; [|split]; (split; [intros cause -> ; reflexivity|]);
    apply Sink_Export_logged.
Qed.

End CauseDiscarded.

(** A request that fails because the storage root is a regular file: the
    caller sees the generic error, the log has the request line only. *)
Lemma failure_cause_discarded_witness :
  fst (Sink_Export the_sink sample.ctx "traces" sample.gauge
         (logged "trace.Export %v" (prototext_Format sample.gauge)
            (sample.blocked 17)))
  = Some (wrapError "failed to create directory %q: %w" ["data/traces"]
            (PathError "mkdir" ["srv"; "data"] syscall.ENOTDIR))
  /\ fst (traceServer_Export sample.handler sample.ctx sample.gauge
            (sample.blocked 17))
     = inr (statusError codes.Internal "error writing data").
Proof.
  assert (Hcause :
    fst (Sink_Export the_sink sample.ctx "traces" sample.gauge
           (logged "trace.Export %v" (prototext_Format sample.gauge)
              (sample.blocked 17)))
    = Some (wrapError "failed to create directory %q: %w" ["data/traces"]
              (PathError "mkdir" ["srv"; "data"] syscall.ENOTDIR)))
    by (vm_compute; reflexivity).
  split; [exact Hcause|].
  exact (proj1 (proj1 (failure_cause_discarded sample.handler
                         {| metrics_sink := the_sink |}
                         {| logs_sink := the_sink |}
                         sample.ctx sample.gauge sample.gauge sample.gauge
                         (sample.blocked 17))) _ Hcause).
Defined.

(** C4, as stated, fails.  The same request fails once because the storage
    root is a regular file and once because the device is full; the two
    calls log the very same single line, so nothing that reads the log can
    tell either cause. *)
Lemma cause_absent_from_diagnostics :
  fst (Sink_Export the_sink sample.ctx "traces" sample.gauge
         (logged "trace.Export %v" (prototext_Format sample.gauge)
            (sample.blocked 17)))
  = Some (wrapError "failed to create directory %q: %w" ["data/traces"]
            (PathError "mkdir" ["srv"; "data"] syscall.ENOTDIR))
  /\ fst (Sink_Export the_sink sample.ctx "traces" sample.gauge
            (logged "trace.Export %v" (prototext_Format sample.gauge)
               (sample.full 17)))
     = Some (wrapError "failed to write file %q: %w" ["data/traces/17"]
               (PathError "write" ["srv"; "data"; "traces"; "17"]
                  syscall.ENOSPC))
  /\ klog_out (snd (traceServer_Export sample.handler sample.ctx sample.gauge
                      (sample.blocked 17)))
     = [{| severity := Info; format := "trace.Export %v";
           args := ["production=42"] |}]
  /\ klog_out (snd (traceServer_Export sample.handler sample.ctx sample.gauge
                      (sample.full 17)))
     = [{| severity := Info; format := "trace.Export %v";
           args := ["production=42"] |}]
  /\ ~ (exists read : list LogEntry -> option error,
          read (klog_out (snd (traceServer_Export sample.handler sample.ctx
                                 sample.gauge (sample.blocked 17))))
          = fst (Sink_Export the_sink sample.ctx "traces" sample.gauge
                   (logged "trace.Export %v" (prototext_Format sample.gauge)
                      (sample.blocked 17)))
          /\ read (klog_out (snd (traceServer_Export sample.handler sample.ctx
                                    sample.gauge (sample.full 17))))
             = fst (Sink_Export the_sink sample.ctx "traces" sample.gauge
                      (logged "trace.Export %v" (prototext_Format sample.gauge)
                         (sample.full 17)))).
Proof.
  assert (H1 : fst (Sink_Export the_sink sample.ctx "traces" sample.gauge
         (logged "trace.Export %v" (prototext_Format sample.gauge)
            (sample.blocked 17)))
  = Some (wrapError "failed to create directory %q: %w" ["data/traces"]
            (PathError "mkdir" ["srv"; "data"] syscall.ENOTDIR)))
    by (vm_compute; reflexivity).
  assert (H2 : fst (Sink_Export the_sink sample.ctx "traces" sample.gauge
            (logged "trace.Export %v" (prototext_Format sample.gauge)
               (sample.full 17)))
     = Some (wrapError "failed to write file %q: %w" ["data/traces/17"]
               (PathError "write" ["srv"; "data"; "traces"; "17"]
                  syscall.ENOSPC)))
    by (vm_compute; reflexivity).
  assert (H3 : klog_out (snd (traceServer_Export sample.handler sample.ctx
                      sample.gauge (sample.blocked 17)))
     = [{| severity := Info; format := "trace.Export %v";
           args := ["production=42"] |}])
    by (vm_compute; reflexivity).
  assert (H4 : klog_out (snd (traceServer_Export sample.handler sample.ctx
                      sample.gauge (sample.full 17)))
     = [{| severity := Info; format := "trace.Export %v";
           args := ["production=42"] |}])
    by (vm_compute; reflexivity).
  refine (conj H1 (conj H2 (conj H3 (conj H4 _)))).
  intros (read & Hb & Hf). rewrite H1, H3 in Hb. rewrite H2, H4 in Hf.
  rewrite Hb in Hf. discriminate Hf.
Qed.

(* ===================================================================== *)
(** * Stored entries *)
(* ===================================================================== *)

Lemma elem_of_files (w : World) (k : list string) :
  k ∈ files w <-> is_file (nodes w !! k) = true.
Proof.
  unfold files. rewrite elem_of_dom. split.
  - intros [x Hx]. apply map_lookup_filter_Some in Hx as [Hk Hf].
    now rewrite Hk.
  - destruct (nodes w !! k) as [x|] eqn:Hk; [|discriminate].
    intros Hf. exists x. apply map_lookup_filter_Some. now split.
Qed.

Lemma kept_file_data (w w1 : World) (target k : list string) :
  kept_or_new_dir w w1 target k ->
  file_data (nodes w1 !! k) = file_data (nodes w !! k).
Proof.
  intros [-> | (Hn & Hd & _)]; [reflexivity|]. rewrite Hn.
  destruct (nodes w1 !! k) as [[]|]; (reflexivity || discriminate).
Qed.

Lemma kept_is_file (w w1 : World) (target k : list string) :
  kept_or_new_dir w w1 target k ->
  is_file (nodes w1 !! k) = is_file (nodes w !! k).
Proof.
  intros [-> | (Hn & Hd & _)]; [reflexivity|]. rewrite Hn.
  destruct (nodes w1 !! k) as [[]|]; (reflexivity || discriminate).
Qed.

Lemma kept_existing (w w1 : World) (target k : list string) (x : Node) :
  kept_or_new_dir w w1 target k ->
  nodes w !! k = Some x -> nodes w1 !! k = Some x.
Proof. intros [-> | (Hn & _)] Hx; congruence. Qed.

Section Entries.
Context {M : Type} `{Message M}.

(** A successful call: the message was encoded to [b], and the world is
    the one after the directory step with the file at the entry path
    holding exactly [b]. *)
Lemma Sink_Export_success (s : Sink) (ctx : context.Context)
    (stream : string) (msg : M) (w : World) :
  proper_root (dir s) -> filepath.plain stream ->
  let kd := os.resolve w (dir s) ++ [stream] in
  let ke := os.resolve w (dir s) ++ [stream; strconv.FormatInt (now w) 10] in
  fst (Sink_Export s ctx stream msg w) = None ->
  exists (b : list byte) (w1 : World),
    proto_Marshal msg = inl b
    /\ (forall k, kept_or_new_dir w w1 kd k)
    /\ is_dir (nodes w1 !! kd) = true
    /\ free w1 = free w
    /\ can_open w1 ke = true
    /\ (length b <= room_for w1 ke)%nat
    /\ nodes (snd (Sink_Export s ctx stream msg w))
       = <[ke := File true b]> (nodes w1)
    /\ free (snd (Sink_Export s ctx stream msg w))
       = (room_for w1 ke - length b)%nat.
Proof.
  intros Hroot Hs kd ke.
  pose proof (Sink_Export_spec s ctx stream msg w Hroot Hs) as Hspec.
  cbn zeta in Hspec. fold kd ke in Hspec.
  destruct (Sink_Export s ctx stream msg w) as [e w']. cbn [fst snd].
  intros ->.
  destruct Hspec as (w1 & mkdirs & _ & _ & Hfree & _ & _ & _ & Hkept & Hcases).
  destruct Hcases as [(err & Habs & _) | (Hdir & [(err & _ & Habs & _) | (b & Hm & Hcases)])];
    try discriminate.
  destruct Hcases as [(_ & (errno & Habs) & _) | (Hopen & He & Hn & Hf & _)];
    try discriminate.
  destruct (length b <=? room_for w1 ke)%nat eqn:Hfit; [|discriminate].
  apply Nat.leb_le in Hfit.
  rewrite Nat.min_l in Hn, Hf by assumption.
  rewrite firstn_all in Hn.
  exists b, w1. repeat split; assumption.
Qed.

End Entries.

Section OneEntry.
Context {M : Type} `{MessageLaws M}.

(** C2, as amended.  A successful call writes exactly one file, at
    [<root>/<stream>/<n>] under the stream directory: it holds exactly the
    serialization of the request, from which the request is decoded
    again; no other file appears or changes.  The file is new unless a
    file was there already, in which case it is replaced and no file is
    new. *)
Theorem export_writes_one_entry (s : Sink) (ctx : context.Context)
    (stream : string) (msg : M) (w : World) :
  proper_root (dir s) -> filepath.plain stream ->
  let ke := os.resolve w (dir s) ++ [stream; strconv.FormatInt (now w) 10] in
  let r := Sink_Export s ctx stream msg w in
  fst r = None ->
  exists b : list byte,
    proto_Marshal msg = inl b
    /\ nodes (snd r) !! ke = Some (File true b)
    /\ proto_Unmarshal b = Some msg
    /\ files (snd r) = files w ∪ {[ke]}
    /\ files (snd r) ∖ files w = (if decide (ke ∈ files w) then ∅ else {[ke]})
    /\ (forall k, k <> ke ->
                  file_data (nodes (snd r) !! k) = file_data (nodes w !! k)).
Proof.
  intros Hroot Hs ke r Hok. subst r.
  destruct (Sink_Export_success s ctx stream msg w Hroot Hs Hok)
    as (b & w1 & Hm & Hkept & _ & _ & _ & _ & Hnodes & _).
  fold ke in Hnodes.
  assert (Hfiles : files (snd (Sink_Export s ctx stream msg w))
                   = files w ∪ {[ke]}).
  { apply set_eq. intros k.
    rewrite elem_of_union, elem_of_singleton, !elem_of_files, Hnodes.
    destruct (decide (k = ke)) as [-> | Hne].
    - rewrite lookup_insert_eq. cbn. tauto.
    - rewrite lookup_insert_ne by congruence.
      rewrite (kept_is_file _ _ _ _ (Hkept k)). tauto. }
  exists b. repeat split.
  - exact Hm.
  - now rewrite Hnodes, lookup_insert_eq.
  - now apply unmarshal_marshal.
  - exact Hfiles.
  - rewrite Hfiles.
    destruct (decide (ke ∈ files w)) as [Hin | Hnotin];
      apply set_eq; intros k;
      rewrite elem_of_difference, elem_of_union, elem_of_singleton.
    + rewrite elem_of_empty.
      split; [intros [[Hk | ->] Hn]; contradiction | intros []].
    + split; [intros [[Hk | ->] Hn]; [contradiction | reflexivity]|].
      intros ->. split; [now right | assumption].
  - intros k Hne. rewrite Hnodes, lookup_insert_ne by congruence.
    apply (kept_file_data _ _ _ _ (Hkept k)).
Qed.

End OneEntry.

(** The metrics request of the example scenario, stored by the sink of the
    program in an empty working directory. *)
Lemma export_writes_one_entry_witness :
  proper_root (dir the_sink) /\ filepath.plain "metrics"
  /\ fst (Sink_Export the_sink sample.ctx "metrics" sample.gauge
            (sample.fresh 17)) = None
  /\ exists b : list byte,
       proto_Marshal sample.gauge = inl b
       /\ nodes (snd (Sink_Export the_sink sample.ctx "metrics" sample.gauge
                        (sample.fresh 17)))
            !! (os.resolve (sample.fresh 17) (dir the_sink)
                ++ ["metrics"; strconv.FormatInt (now (sample.fresh 17)) 10])
          = Some (File true b)
       /\ proto_Unmarshal b = Some sample.gauge.
Proof.
  assert (Hroot : proper_root (dir the_sink))
    by (repeat split; (reflexivity || discriminate)).
  assert (Hs : filepath.plain "metrics")
    by (repeat split; (reflexivity || discriminate)).
  assert (Hok : fst (Sink_Export the_sink sample.ctx "metrics" sample.gauge
                       (sample.fresh 17)) = None)
    by (vm_compute; reflexivity).
  refine (conj Hroot (conj Hs (conj Hok _))).
  destruct (export_writes_one_entry the_sink sample.ctx "metrics" sample.gauge
              (sample.fresh 17) Hroot Hs Hok)
    as (b & Hm & Hfile & Hback & _).
  exists b. exact (conj Hm (conj Hfile Hback)).
Defined.

(** C2, as stated, fails.  A second request in the same nanosecond as a
    stored one succeeds, yet the files afterwards are the files before: it
    has replaced the stored entry and no new file was created. *)
Lemma collision_creates_no_file :
  files (sample.once 17) = {[ ["srv"; "data"; "metrics"; "17"] ]}
  /\ fst (Sink_Export the_sink sample.ctx "metrics" sample.gauge
            (sample.once 17)) = None
  /\ files (snd (Sink_Export the_sink sample.ctx "metrics" sample.gauge
                   (sample.once 17)))
     ∖ files (sample.once 17) = ∅.
Proof.
  assert (Hroot : proper_root (dir the_sink))
    by (repeat split; (reflexivity || discriminate)).
  assert (Hs : filepath.plain "metrics")
    by (repeat split; (reflexivity || discriminate)).
  assert (Hbefore : forall k,
             is_file (nodes (sample.once 17) !! k) = true
             <-> k = ["srv"; "data"; "metrics"; "17"]).
  { intros k. unfold sample.once.
    assert (Hn : nodes (snd (Sink_Export the_sink sample.ctx "metrics"
                               sample.span (sample.fresh 17)))
                 = <[ ["srv"; "data"; "metrics"; "17"] :=
                        File true (list_byte_of_string "span") ]>
                     (<[ ["srv"; "data"; "metrics"] := Dir true ]>
                        (<[ ["srv"; "data"] := Dir true ]>
                           (nodes (sample.fresh 17)))))
      by (vm_compute; reflexivity).
    rewrite Hn. unfold sample.fresh. cbn [nodes].
    destruct (decide (k = ["srv"; "data"; "metrics"; "17"])) as [-> | Hne].
    - rewrite lookup_insert_eq. cbn. tauto.
    - rewrite lookup_insert_ne by congruence.
      split; [|contradiction]. intros Hf. exfalso.
      repeat (rewrite lookup_insert in Hf; case_decide; [discriminate Hf|]).
      rewrite lookup_empty in Hf. discriminate Hf. }
  assert (Hfiles : files (sample.once 17) = {[ ["srv"; "data"; "metrics"; "17"] ]}).
  { apply set_eq. intros k. now rewrite elem_of_files, elem_of_singleton. }
  assert (Hok : fst (Sink_Export the_sink sample.ctx "metrics" sample.gauge
                       (sample.once 17)) = None)
    by (vm_compute; reflexivity).
  refine (conj Hfiles (conj Hok _)).
  destruct (export_writes_one_entry the_sink sample.ctx "metrics" sample.gauge
              (sample.once 17) Hroot Hs Hok)
    as (b & _ & _ & _ & _ & Hnew & _).
  rewrite Hnew.
  assert (Hke : os.resolve (sample.once 17) (dir the_sink)
                ++ ["metrics"; strconv.FormatInt (now (sample.once 17)) 10]
                = ["srv"; "data"; "metrics"; "17"])
    by (vm_compute; reflexivity).
  rewrite Hke. rewrite decide_True; [reflexivity|].
  rewrite Hfiles. now apply elem_of_singleton.
Qed.

(* ===================================================================== *)
(** * A stream directory that is already there *)
(* ===================================================================== *)

Lemma mkdirAll_exists (rk : list string) (perm : Z) (w : World) :
  is_dir (nodes w !! rev rk) = true -> os.mkdirAll rk perm w = (None, w).
Proof.
  intros Hdir. destruct rk as [|c rk]; cbn [os.mkdirAll];
    destruct (nodes w !! rev _) as [[]|]; (reflexivity || discriminate).
Qed.

Section StreamDirectory.
Context {M : Type} `{Message M}.

(** With the stream directory in place the call goes straight to the
    encoding and the write. *)
Lemma Sink_Export_dir_exists (s : Sink) (ctx : context.Context)
    (stream : string) (msg : M) (w : World) :
  proper_root (dir s) -> filepath.plain stream ->
  is_dir (nodes w !! (os.resolve w (dir s) ++ [stream])) = true ->
  let p := entry_path (dir s) stream (now w) in
  Sink_Export s ctx stream msg w =
    match proto_Marshal msg with
    | inr err =>
        (Some (fmt_Errorf "failed to serialize message: %w" [] err), w)
    | inl b =>
        let '(ew, w2) := os.WriteFile p b 420 w in
        (match ew with
         | Some err =>
             Some (fmt_Errorf "failed to write file %q: %w" [p] err)
         | None => None
         end, w2)
    end.
Proof.
  intros Hroot Hs Hdir p.
  rewrite Sink_Export_unfold by assumption.
  rewrite mkdirAll_exists by now rewrite rev_involutive.
  reflexivity.
Qed.

(** Writing an entry into an existing stream directory: the call
    succeeds as soon as the message can be encoded, the entry can be
    opened and the device has room. *)
Lemma Sink_Export_into_dir (s : Sink) (ctx : context.Context)
    (stream : string) (msg : M) (b : list byte) (w : World) :
  proper_root (dir s) -> filepath.plain stream ->
  let ke := os.resolve w (dir s) ++ [stream; strconv.FormatInt (now w) 10] in
  is_dir (nodes w !! (os.resolve w (dir s) ++ [stream])) = true ->
  proto_Marshal msg = inl b ->
  can_open w ke = true ->
  (length b <= room_for w ke)%nat ->
  fst (Sink_Export s ctx stream msg w) = None
  /\ nodes (snd (Sink_Export s ctx stream msg w))
     = <[ke := File true b]> (nodes w)
  /\ trace (snd (Sink_Export s ctx stream msg w))
     = trace w ++ [SysOpen ke 420; SysWrite ke b].
Proof.
  intros Hroot Hs ke Hdir Hm Hopen Hfit.
  rewrite Sink_Export_dir_exists by assumption. rewrite Hm.
  pose proof (WriteFile_spec (entry_path (dir s) stream (now w)) b 420 w)
    as Hwr.
  cbn zeta in Hwr. rewrite resolve_entry in Hwr by assumption.
  fold ke in Hwr.
  destruct (os.WriteFile _ b 420 w) as [ew w2]. cbn [fst snd].
  rewrite Hopen in Hwr. destruct Hwr as (_ & -> & Hn & _ & Htr).
  apply Nat.leb_le in Hfit as Hfit'. rewrite Hfit'.
  rewrite Nat.min_l, firstn_all in Hn by assumption.
  rewrite owner_writable_0644 in Hn.
  repeat split; [|assumption].
  rewrite Hn. now destruct (is_file (nodes w !! ke)).
Qed.

End StreamDirectory.

Lemma resolve_set_now (t : Z) (w : World) (path : string) :
  os.resolve (set_now t w) path = os.resolve w path.
Proof. reflexivity. Qed.

Lemma stream_dir_not_entry (kr : list string) (stream n : string) :
  kr ++ [stream] <> kr ++ [stream; n].
Proof. intros Heq. apply app_inv_head in Heq. discriminate Heq. Qed.

Section Collisions.
Context {M : Type} `{Message M}.

(** C5.  After a successful call for a stream, a second call for the same
    stream at a different clock reading that succeeds leaves two distinct
    files, each with its own record.  A second call at the same clock
    reading goes to the same path: it succeeds without any error as long
    as the device has room, the file then holds the second record only,
    and no other file has appeared. *)
Theorem timestamps_name_entries (s : Sink) (ctx : context.Context)
    (stream : string) (m1 m2 : M) (b1 b2 : list byte) (t2 : Z) (w : World) :
  proper_root (dir s) -> filepath.plain stream ->
  proto_Marshal m1 = inl b1 -> proto_Marshal m2 = inl b2 ->
  let k1 := os.resolve w (dir s) ++ [stream; strconv.FormatInt (now w) 10] in
  let k2 := os.resolve w (dir s) ++ [stream; strconv.FormatInt t2 10] in
  let r1 := Sink_Export s ctx stream m1 w in
  let r2 := Sink_Export s ctx stream m2 (set_now t2 (snd r1)) in
  fst r1 = None ->
  (t2 <> now w -> fst r2 = None ->
   k1 <> k2
   /\ file_data (nodes (snd r2) !! k1) = Some b1
   /\ file_data (nodes (snd r2) !! k2) = Some b2)
  /\ (t2 = now w -> (length b2 <= free (snd r1) + length b1)%nat ->
      k1 = k2
      /\ fst r2 = None
      /\ file_data (nodes (snd r2) !! k1) = Some b2
      /\ files (snd r2) = files (snd r1)).
Proof.
  intros Hroot Hs Hm1 Hm2 k1 k2 r1 r2 Hok1. subst r1 r2.
  destruct (Sink_Export_success s ctx stream m1 w Hroot Hs Hok1)
    as (b & w1a & Hm & Hkept & Hdir & _ & _ & _ & Hnodes & _).
  assert (b = b1) by congruence. subst b. fold k1 in Hnodes.
  pose proof (Sink_Export_same_env s ctx stream m1 w) as (Hnow & Hcwd & _).
  set (w1 := snd (Sink_Export s ctx stream m1 w)) in *.
  assert (Hres : os.resolve (set_now t2 w1) (dir s) = os.resolve w (dir s)).
  { rewrite resolve_set_now. now apply resolve_same_cwd. }
  split.
  - intros Hne Hok2.
    destruct (Sink_Export_success s ctx stream m2 (set_now t2 w1) Hroot Hs Hok2)
      as (b & w2a & Hm' & Hkept2 & _ & _ & _ & _ & Hnodes2 & _).
    assert (b = b2) by congruence. subst b.
    rewrite Hres in Hnodes2, Hkept2. cbn [set_now now] in Hnodes2.
    fold k2 in Hnodes2.
    assert (Hk : k1 <> k2).
    { subst k1 k2. intros Heq. apply app_inv_head in Heq.
      injection Heq as Heq. apply FormatInt_inj in Heq. congruence. }
    repeat split; [exact Hk | |].
    + rewrite Hnodes2, lookup_insert_ne by congruence.
      rewrite (kept_existing _ _ _ _ (File true b1) (Hkept2 k1)); [reflexivity|].
      cbn [set_now nodes]. now rewrite Hnodes, lookup_insert_eq.
    + now rewrite Hnodes2, lookup_insert_eq.
  - intros -> Hroom.
    assert (Hfile : nodes (set_now (now w) w1) !! k1 = Some (File true b1)).
    { cbn [set_now nodes]. now rewrite Hnodes, lookup_insert_eq. }
    destruct (Sink_Export_into_dir s ctx stream m2 b2 (set_now (now w) w1))
      as (Hok2 & Hnodes2 & _); try assumption.
    + rewrite Hres. cbn [set_now nodes].
      rewrite Hnodes, lookup_insert_ne by (symmetry; apply stream_dir_not_entry).
      exact Hdir.
    + rewrite Hres. cbn [set_now now]. fold k1.
      unfold can_open. now rewrite Hfile.
    + rewrite Hres. cbn [set_now now]. fold k1.
      unfold room_for. rewrite Hfile. cbn [file_data set_now free].
      exact Hroom.
    + rewrite Hres in Hnodes2. cbn [set_now now] in Hnodes2. fold k1 in Hnodes2.
      repeat split; [exact Hok2 | |].
      * now rewrite Hnodes2, lookup_insert_eq.
      * apply set_eq. intros k. rewrite !elem_of_files, Hnodes2.
        cbn [set_now nodes].
        destruct (decide (k = k1)) as [-> | Hne].
        -- rewrite lookup_insert_eq.
           cbn [set_now nodes] in Hfile. rewrite Hfile. reflexivity.
        -- now rewrite lookup_insert_ne by congruence.
Qed.

End Collisions.

(** Two metrics requests through the sink of the program, one nanosecond
    apart, and two in the same nanosecond. *)
Lemma timestamps_name_entries_witness :
  proper_root (dir the_sink) /\ filepath.plain "metrics"
  /\ fst (Sink_Export the_sink sample.ctx "metrics" sample.span
            (sample.fresh 17)) = None
  /\ 18 <> now (sample.fresh 17)
  /\ fst (Sink_Export the_sink sample.ctx "metrics" sample.gauge
            (set_now 18 (snd (Sink_Export the_sink sample.ctx "metrics"
                                sample.span (sample.fresh 17))))) = None
  /\ file_data
       (nodes (snd (Sink_Export the_sink sample.ctx "metrics" sample.gauge
                      (set_now 18
                         (snd (Sink_Export the_sink sample.ctx "metrics"
                                 sample.span (sample.fresh 17))))))
          !! (os.resolve (sample.fresh 17) (dir the_sink)
              ++ ["metrics"; strconv.FormatInt (now (sample.fresh 17)) 10]))
     = Some (list_byte_of_string "span")
  /\ 17 = now (sample.fresh 17)
  /\ (length (list_byte_of_string "production=42")
      <= free (snd (Sink_Export the_sink sample.ctx "metrics" sample.span
                      (sample.fresh 17)))
         + length (list_byte_of_string "span"))%nat
  /\ file_data
       (nodes (snd (Sink_Export the_sink sample.ctx "metrics" sample.gauge
                      (set_now 17
                         (snd (Sink_Export the_sink sample.ctx "metrics"
                                 sample.span (sample.fresh 17))))))
          !! (os.resolve (sample.fresh 17) (dir the_sink)
              ++ ["metrics"; strconv.FormatInt (now (sample.fresh 17)) 10]))
     = Some (list_byte_of_string "production=42").
Proof.
  assert (Hroot : proper_root (dir the_sink))
    by (repeat split; (reflexivity || discriminate)).
  assert (Hs : filepath.plain "metrics")
    by (repeat split; (reflexivity || discriminate)).
  assert (Hok1 : fst (Sink_Export the_sink sample.ctx "metrics" sample.span
                        (sample.fresh 17)) = None)
    by (vm_compute; reflexivity).
  assert (Hne : 18 <> now (sample.fresh 17)) by discriminate.
  assert (Hok2 : fst (Sink_Export the_sink sample.ctx "metrics" sample.gauge
            (set_now 18 (snd (Sink_Export the_sink sample.ctx "metrics"
                                sample.span (sample.fresh 17))))) = None)
    by (vm_compute; reflexivity).
  assert (Hsame : 17 = now (sample.fresh 17)) by reflexivity.
  assert (Hroom : (length (list_byte_of_string "production=42")
                   <= free (snd (Sink_Export the_sink sample.ctx "metrics"
                                   sample.span (sample.fresh 17)))
                      + length (list_byte_of_string "span"))%nat)
    by (vm_compute; lia).
  refine (conj Hroot (conj Hs (conj Hok1 (conj Hne (conj Hok2
            (conj _ (conj Hsame (conj Hroom _)))))))).
  - exact (proj1 (proj2 (proj1 (timestamps_name_entries the_sink sample.ctx
                                  "metrics" sample.span sample.gauge
                                  (list_byte_of_string "span")
                                  (list_byte_of_string "production=42")
                                  18 (sample.fresh 17) Hroot Hs eq_refl eq_refl
                                  Hok1) Hne Hok2))).
  - exact (proj1 (proj2 (proj2 (proj2 (timestamps_name_entries the_sink
                                         sample.ctx "metrics" sample.span
                                         sample.gauge
                                         (list_byte_of_string "span")
                                         (list_byte_of_string "production=42")
                                         17 (sample.fresh 17) Hroot Hs eq_refl
                                         eq_refl Hok1) Hsame Hroom)))).
Defined.

(* ===================================================================== *)
(** * A storage root that is not there yet *)
(* ===================================================================== *)

Lemma wf_child_missing (w : World) (k : list string) (c : string) :
  wf_world w -> nodes w !! k = None -> nodes w !! (k ++ [c]) = None.
Proof.
  intros Hwf Hk. destruct (nodes w !! (k ++ [c])) as [x|] eqn:Hc; [|reflexivity].
  destruct (Hwf _ _ Hc) as [Habs | Hdir].
  - symmetry in Habs. now apply app_cons_not_nil in Habs.
  - rewrite parent_snoc, Hk in Hdir. discriminate Hdir.
Qed.

(** Making a directory and its parent, both missing, below a writable
    directory: two calls to [Mkdir], both successful. *)
Lemma mkdirAll_fresh (rk : list string) (c0 c : string) (w : World) :
  let k0 := rev rk in
  let k1 := rev rk ++ [c0] in
  let k2 := (rev rk ++ [c0]) ++ [c] in
  nodes w !! k0 = Some (Dir true) ->
  nodes w !! k1 = None ->
  nodes w !! k2 = None ->
  exists w2,
    os.mkdirAll (c :: c0 :: rk) 493 w = (None, w2)
    /\ same_env w w2 /\ free w2 = free w
    /\ nodes w2 = <[k2 := Dir true]> (<[k1 := Dir true]> (nodes w))
    /\ trace w2 = trace w ++ [SysMkdir k1 493; SysMkdir k2 493].
Proof.
  intros k0 k1 k2 H0 H1 H2. subst k0 k1 k2.
  assert (Hne : (rev rk ++ [c0]) ++ [c] <> rev rk ++ [c0]).
  { intros Heq. symmetry in Heq.
    rewrite <- (app_nil_r (rev rk ++ [c0])) in Heq at 1.
    apply app_inv_head in Heq. discriminate Heq. }
  cbn [os.mkdirAll rev]. rewrite H2, H1.
  rewrite (mkdirAll_exists rk 493 w) by now rewrite H0.
  unfold os.Mkdir at 1. cbn [nodes record_syscall]. rewrite H1.
  rewrite parent_snoc, H0.
  unfold os.Mkdir. cbn [nodes record_syscall set_nodes].
  rewrite lookup_insert_ne, H2 by congruence.
  rewrite parent_snoc, lookup_insert_eq.
  rewrite owner_writable_0755.
  eexists. split; [reflexivity|].
  cbn [nodes trace free set_nodes record_syscall].
  repeat split. now rewrite <- app_assoc.
Qed.

Lemma room_for_ge_free (w : World) (k : list string) :
  (free w <= room_for w k)%nat.
Proof. unfold room_for. destruct (file_data _); lia. Qed.

Lemma entry_in_stream_dir (kr : list string) (stream n : string) :
  kr ++ [stream; n] = (kr ++ [stream]) ++ [n].
Proof. now rewrite <- app_assoc. Qed.

Section FirstUse.
Context {M : Type} `{Message M}.

(** C6.  Let the storage root be missing from a well-formed file tree and
    its parent be a writable directory.  The first call for a stream makes
    the root and the stream directory, with two successful calls to
    [Mkdir], and does not fail on directory creation; it succeeds as a
    whole when its message can be encoded and fits on the device.  A
    second call for the same stream, at any later clock reading, makes no
    call to [Mkdir] at all, and succeeds under the same two conditions. *)
Theorem root_created_on_first_use (s : Sink) (ctx : context.Context)
    (stream : string) (m1 m2 : M) (t2 : Z) (w : World) :
  proper_root (dir s) -> filepath.plain stream -> wf_world w ->
  let kr := os.resolve w (dir s) in
  let kd := kr ++ [stream] in
  nodes w !! kr = None ->
  nodes w !! os.parent kr = Some (Dir true) ->
  let r1 := Sink_Export s ctx stream m1 w in
  let w1 := set_now t2 (snd r1) in
  let r2 := Sink_Export s ctx stream m2 w1 in
  (take 2 (calls_since w (snd r1)) = [SysMkdir kr 493; SysMkdir kd 493]
   /\ nodes (snd r1) !! kr = Some (Dir true)
   /\ nodes (snd r1) !! kd = Some (Dir true)
   /\ (forall a err,
          fst r1 <> Some (wrapError "failed to create directory %q: %w" a err))
   /\ (forall b1, proto_Marshal m1 = inl b1 -> (length b1 <= free w)%nat ->
                  fst r1 = None))
  /\ (Forall (fun c => is_mkdir c = false) (calls_since w1 (snd r2))
      /\ (forall a err,
             fst r2 <> Some (wrapError "failed to create directory %q: %w" a err))
      /\ (forall b2, proto_Marshal m2 = inl b2 -> (length b2 <= free w1)%nat ->
                     fst r2 = None)).
Proof.
  intros Hroot Hs Hwf kr kd Hkr Hparent r1 w1 r2.
  (* the root has a last element *)
  assert (Hsnoc : exists kp c0, kr = kp ++ [c0]).
  { destruct kr as [|x kr'] using rev_ind.
    - cbn in Hparent. congruence.
    - now exists kr', x. }
  destruct Hsnoc as (kp & c0 & Hkr_eq).
  assert (Hkd : nodes w !! kd = None) by now apply wf_child_missing.
  assert (Hke : forall n, nodes w !! (kd ++ [n]) = None)
    by (intros n; now apply wf_child_missing).
  (* the directory step of the first call *)
  destruct (mkdirAll_fresh (rev kp) c0 stream w) as
    (wa & Hmk & Henva & Hfreea & Hnodesa & Htracea).
  { rewrite rev_involutive. rewrite Hkr_eq, parent_snoc in Hparent.
    exact Hparent. }
  { rewrite rev_involutive, <- Hkr_eq. exact Hkr. }
  { rewrite rev_involutive, <- Hkr_eq. exact Hkd. }
  rewrite rev_involutive, <- Hkr_eq in Hnodesa, Htracea. fold kd in Hnodesa, Htracea.
  assert (Hmk' : os.mkdirAll (rev kd) 493 w = (None, wa)).
  { unfold kd. rewrite Hkr_eq, !rev_unit. exact Hmk. }
  assert (Hne1 : kd <> kr).
  { unfold kd. intros Heq. symmetry in Heq.
    rewrite <- (app_nil_r kr) in Heq at 1.
    apply app_inv_head in Heq. discriminate Heq. }
  assert (Hne2 : forall n, kd ++ [n] <> kd /\ kd ++ [n] <> kr).
  { intros n. split; intros Heq.
    - symmetry in Heq. rewrite <- (app_nil_r kd) in Heq at 1.
      apply app_inv_head in Heq. discriminate Heq.
    - unfold kd in Heq. rewrite <- app_assoc in Heq. symmetry in Heq.
      rewrite <- (app_nil_r kr) in Heq at 1.
      apply app_inv_head in Heq. discriminate Heq. }
  assert (Hwa_kr : nodes wa !! kr = Some (Dir true)).
  { rewrite Hnodesa, lookup_insert_ne, lookup_insert_eq by congruence.
    reflexivity. }
  assert (Hwa_kd : nodes wa !! kd = Some (Dir true)).
  { now rewrite Hnodesa, lookup_insert_eq. }
  assert (Hwa_ke : forall n, nodes wa !! (kd ++ [n]) = None).
  { intros n. destruct (Hne2 n) as [? ?].
    rewrite Hnodesa, !lookup_insert_ne by congruence. apply Hke. }
  (* what the first call leaves: the two directories, entries that can
     be opened, and a trace that starts with the two mkdir calls *)
  assert (Hfirst :
    (nodes (snd r1) !! kr = Some (Dir true)
     /\ nodes (snd r1) !! kd = Some (Dir true)
     /\ (forall n, can_open (snd r1) (kd ++ [n]) = true)
     /\ exists rest,
          trace (snd r1)
          = trace w ++ [SysMkdir kr 493; SysMkdir kd 493] ++ rest)
    /\ (forall a err,
           fst r1 <> Some (wrapError "failed to create directory %q: %w" a err))
    /\ (forall b1, proto_Marshal m1 = inl b1 -> (length b1 <= free w)%nat ->
                   fst r1 = None)).
  { subst r1. rewrite Sink_Export_unfold by assumption.
    fold kr kd. rewrite Hmk'.
    assert (Hopen_a : forall n, can_open wa (kd ++ [n]) = true).
    { intros n. unfold can_open.
      now rewrite Hwa_ke, parent_snoc, Hwa_kd. }
    destruct (proto_Marshal m1) as [b|err] eqn:Hm1; cbn [fst snd].
    2:{ repeat split; try assumption; try discriminate.
        exists []. now rewrite app_nil_r. }
    pose proof (WriteFile_spec (entry_path (dir s) stream (now w)) b 420 wa)
      as Hwr. cbn zeta in Hwr.
    rewrite (resolve_same_cwd w) in Hwr by apply Henva.
    rewrite resolve_entry in Hwr by assumption. fold kr in Hwr.
    rewrite entry_in_stream_dir in Hwr. fold kd in Hwr.
    destruct (os.WriteFile _ b 420 wa) as [ew w2]. cbn [fst snd].
    rewrite Hopen_a in Hwr. destruct Hwr as (_ & -> & Hn & _ & Htr).
    destruct (Hne2 (strconv.FormatInt (now w) 10)) as [? ?].
    split; [|split].
    - repeat split.
      + rewrite Hn, lookup_insert_ne by congruence. exact Hwa_kr.
      + rewrite Hn, lookup_insert_ne by congruence. exact Hwa_kd.
      + intros n. unfold can_open. rewrite Hn.
        destruct (decide (kd ++ [n] = kd ++ [strconv.FormatInt (now w) 10]))
          as [-> | Hne].
        * rewrite lookup_insert_eq.
          rewrite owner_writable_0644.
          now destruct (is_file _).
        * rewrite lookup_insert_ne, Hwa_ke, parent_snoc by congruence.
          rewrite lookup_insert_ne, Hwa_kd by congruence. reflexivity.
      + eexists. rewrite Htr, Htracea, <- app_assoc. reflexivity.
    - intros a err. destruct (length b <=? _)%nat; discriminate.
    - intros b1 [= <-] Hfit.
      assert (Hroom : (length b <= room_for wa (kd ++ [strconv.FormatInt (now w) 10]))%nat).
      { pose proof (room_for_ge_free wa (kd ++ [strconv.FormatInt (now w) 10])).
        lia. }
      apply Nat.leb_le in Hroom. now rewrite Hroom. }
  destruct Hfirst as ((H1kr & H1kd & H1open & rest & H1tr) & H1err & H1ok).
  split.
  { repeat split; try assumption.
    rewrite (calls_since_app _ _ _ H1tr). reflexivity. }
  (* the second call *)
  pose proof (Sink_Export_same_env s ctx stream m1 w) as (_ & Hcwd1 & _).
  fold r1 in Hcwd1.
  assert (Hres : os.resolve w1 (dir s) = kr).
  { unfold w1. rewrite resolve_set_now. now apply resolve_same_cwd. }
  subst r2. rewrite Sink_Export_dir_exists; try assumption.
  2:{ rewrite Hres. fold kd. unfold w1. cbn [set_now nodes].
      now rewrite H1kd. }
  destruct (proto_Marshal m2) as [b|err] eqn:Hm2; cbn [fst snd].
  2:{ repeat split; try discriminate.
      unfold calls_since. rewrite drop_all. constructor. }
  pose proof (WriteFile_spec (entry_path (dir s) stream (now w1)) b 420 w1)
    as Hwr. cbn zeta in Hwr.
  rewrite resolve_entry, Hres in Hwr by assumption.
  rewrite entry_in_stream_dir in Hwr. fold kd in Hwr.
  destruct (os.WriteFile _ b 420 w1) as [ew w2]. cbn [fst snd].
  assert (Hopen : can_open w1 (kd ++ [strconv.FormatInt (now w1) 10]) = true)
    by apply H1open.
  rewrite Hopen in Hwr. destruct Hwr as (_ & -> & _ & _ & Htr).
  repeat split.
  - rewrite (calls_since_app _ _ _ Htr).
    constructor; [reflexivity|]. constructor; [reflexivity | constructor].
  - intros a err. destruct (length b <=? _)%nat; discriminate.
  - intros b2 [= <-] Hfit.
    assert (Hroom : (length b <= room_for w1 (kd ++ [strconv.FormatInt (now w1) 10]))%nat).
    { pose proof (room_for_ge_free w1 (kd ++ [strconv.FormatInt (now w1) 10])).
      lia. }
    apply Nat.leb_le in Hroom. now rewrite Hroom.
Qed.

End FirstUse.

Lemma sample_fresh_wf (t : Z) : wf_world (sample.fresh t).
Proof.
  intros k x. unfold sample.fresh. cbn [nodes].
  rewrite lookup_insert. case_decide as Hsrv.
  - subst k. intros _. right. reflexivity.
  - rewrite lookup_insert. case_decide as Hroot.
    + subst k. intros _. now left.
    + rewrite lookup_empty. discriminate.
Qed.

(** The sink of the program on its first two requests, in an empty and
    writable working directory. *)
Lemma root_created_on_first_use_witness :
  proper_root (dir the_sink) /\ filepath.plain "traces"
  /\ wf_world (sample.fresh 17)
  /\ nodes (sample.fresh 17) !! os.resolve (sample.fresh 17) (dir the_sink) = None
  /\ nodes (sample.fresh 17)
       !! os.parent (os.resolve (sample.fresh 17) (dir the_sink))
     = Some (Dir true)
  /\ take 2 (calls_since (sample.fresh 17)
               (snd (Sink_Export the_sink sample.ctx "traces" sample.span
                       (sample.fresh 17))))
     = [SysMkdir (os.resolve (sample.fresh 17) (dir the_sink)) 493;
        SysMkdir (os.resolve (sample.fresh 17) (dir the_sink) ++ ["traces"]) 493]
  /\ Forall (fun c => is_mkdir c = false)
       (calls_since
          (set_now 18 (snd (Sink_Export the_sink sample.ctx "traces"
                              sample.span (sample.fresh 17))))
          (snd (Sink_Export the_sink sample.ctx "traces" sample.gauge
                  (set_now 18 (snd (Sink_Export the_sink sample.ctx "traces"
                                      sample.span (sample.fresh 17))))))).
Proof.
  assert (Hroot : proper_root (dir the_sink))
    by (repeat split; (reflexivity || discriminate)).
  assert (Hs : filepath.plain "traces")
    by (repeat split; (reflexivity || discriminate)).
  assert (Hmissing : nodes (sample.fresh 17)
                       !! os.resolve (sample.fresh 17) (dir the_sink) = None)
    by (vm_compute; reflexivity).
  assert (Hparent : nodes (sample.fresh 17)
                      !! os.parent (os.resolve (sample.fresh 17) (dir the_sink))
                    = Some (Dir true))
    by (vm_compute; reflexivity).
  refine (conj Hroot (conj Hs (conj (sample_fresh_wf 17)
            (conj Hmissing (conj Hparent _))))).
  pose proof (root_created_on_first_use the_sink sample.ctx "traces"
                sample.span sample.gauge 18 (sample.fresh 17)
                Hroot Hs (sample_fresh_wf 17) Hmissing Hparent) as Hthm.
  exact (conj (proj1 (proj1 Hthm)) (proj1 (proj2 Hthm))).
Defined.

(* ===================================================================== *)
(** * Failures *)
(* ===================================================================== *)

Lemma entry_not_prefix_of_dir (kd : list string) (n : string) :
  ~ (kd ++ [n]) `prefix_of` kd.
Proof. apply prefix_snoc_not. Qed.

Section Failures.
Context {M : Type} `{Message M}.
Import syscall.

(** C7, as amended.  The three failures are told apart by their message.
    A failed directory creation stops before the message is looked at
    (any other message gives the same result) and a failed serialization
    stops before any file is opened: in both cases the only calls made
    are [Mkdir] calls and the only change is directories made on the way
    to the stream directory.  A failed write changes nothing else either,
    except possibly the entry itself: if the file could be opened but the
    device ran out of room, the entry is left holding a proper prefix of
    the serialized bytes. *)
Theorem failures_and_their_effects (s : Sink) (ctx : context.Context)
    (stream : string) (msg : M) (w : World) (cause : error) :
  proper_root (dir s) -> filepath.plain stream ->
  let kd := os.resolve w (dir s) ++ [stream] in
  let ke := os.resolve w (dir s) ++ [stream; strconv.FormatInt (now w) 10] in
  let r := Sink_Export s ctx stream msg w in
  fst r = Some cause ->
  (((exists a err, cause = wrapError "failed to create directory %q: %w" a err)
    /\ (forall k, kept_or_new_dir w (snd r) kd k)
    /\ Forall (fun c => is_mkdir c = true) (calls_since w (snd r))
    /\ (forall msg' : M, Sink_Export s ctx stream msg' w = r))
   \/ ((exists err, proto_Marshal msg = inr err
                    /\ cause = wrapError "failed to serialize message: %w" [] err)
       /\ (forall k, kept_or_new_dir w (snd r) kd k)
       /\ Forall (fun c => is_mkdir c = true) (calls_since w (snd r)))
   \/ ((exists a err, cause = wrapError "failed to write file %q: %w" a err)
       /\ (forall k, k <> ke -> kept_or_new_dir w (snd r) kd k)
       /\ (nodes (snd r) !! ke = nodes w !! ke
           \/ exists b n,
                proto_Marshal msg = inl b /\ (n < length b)%nat
                /\ nodes (snd r) !! ke = Some (File true (take n b)))))
  /\ (forall a1 e1 a2 e2 a3 e3,
         wrapError "failed to create directory %q: %w" a1 e1
         <> wrapError "failed to serialize message: %w" a2 e2
         /\ wrapError "failed to create directory %q: %w" a1 e1
            <> wrapError "failed to write file %q: %w" a3 e3
         /\ wrapError "failed to serialize message: %w" a2 e2
            <> wrapError "failed to write file %q: %w" a3 e3).
Proof.
  intros Hroot Hs kd ke r Hfail.
  split; [|intros; repeat split; discriminate].
  pose proof (Sink_Export_spec s ctx stream msg w Hroot Hs) as Hspec.
  cbn zeta in Hspec. fold kd ke in Hspec.
  assert (Hunfold : forall msg' : M,
             Sink_Export s ctx stream msg' w
             = let '(emk, w1) := os.mkdirAll (rev kd) 493 w in _)
    by (intros msg'; now apply Sink_Export_unfold).
  cbn zeta in Hunfold.
  subst r. destruct (Sink_Export s ctx stream msg w) as [e w'] eqn:Hrun.
  cbn [fst snd] in *. subst e.
  destruct Hspec as (w1 & mkdirs & _ & _ & _ & Htr & Hall & _ & Hkept & Hcases).
  assert (Hmk : Forall (fun c => is_mkdir c = true) mkdirs).
  { eapply Forall_impl; [exact Hall|]. now intros c [? _]. }
  assert (Hke : nodes w1 !! ke = nodes w !! ke).
  { destruct (Hkept ke) as [Heq | (_ & _ & Hpre)]; [exact Heq|].
    exfalso. unfold ke, kd in Hpre. rewrite entry_in_stream_dir in Hpre.
    now apply entry_not_prefix_of_dir in Hpre. }
  destruct Hcases as [(err & [= ->] & ->)
                     | (Hdir & [(err & Hm & [= ->] & ->) | (b & Hm & Hcases)])].
  - left. split; [now eexists _, _|]. split; [exact Hkept|].
    split; [now rewrite (calls_since_app _ _ _ Htr)|].
    intros msg'. rewrite Hunfold. rewrite (Hunfold msg) in Hrun.
    destruct (os.mkdirAll (rev kd) 493 w) as [[err0|] w0].
    + exact Hrun.
    + exfalso. destruct (proto_Marshal msg); [|discriminate Hrun].
      destruct (os.WriteFile _ _ 420 w0) as [[?|] ?]; discriminate Hrun.
  - right. left. split; [now exists err|]. split; [exact Hkept|].
    now rewrite (calls_since_app _ _ _ Htr).
  - right. right.
    destruct Hcases as [(Hopen & (errno & [= ->]) & Hn & _)
                       | (Hopen & He & Hn & _)].
    + split; [now eexists _, _|]. split.
      * intros k _. unfold kept_or_new_dir. rewrite Hn. apply Hkept.
      * left. now rewrite Hn.
    + destruct (length b <=? room_for w1 ke)%nat eqn:Hfit; [discriminate He|].
      injection He as ->. apply Nat.leb_gt in Hfit.
      split; [now eexists _, _|]. split.
      * intros k Hne. unfold kept_or_new_dir.
        rewrite Hn, lookup_insert_ne by congruence. apply Hkept.
      * right. exists b, (Nat.min (length b) (room_for w1 ke)).
        split; [exact Hm|]. split; [lia|].
        now rewrite Hn, lookup_insert_eq.
Qed.

End Failures.

(** A request that cannot be encoded, in an empty working directory: the
    directories are made, then the call stops. *)
Lemma failures_and_their_effects_witness :
  proper_root (dir the_sink) /\ filepath.plain "traces"
  /\ fst (Sink_Export the_sink sample.ctx "traces" sample.broken
            (sample.fresh 17))
     = Some (wrapError "failed to serialize message: %w" []
               (errorString "proto: field contains invalid UTF-8"))
  /\ (forall a1 e1 a2 e2,
         wrapError "failed to create directory %q: %w" a1 e1
         <> wrapError "failed to serialize message: %w" a2 e2).
Proof.
  assert (Hroot : proper_root (dir the_sink))
    by (repeat split; (reflexivity || discriminate)).
  assert (Hs : filepath.plain "traces")
    by (repeat split; (reflexivity || discriminate)).
  assert (Hfail : fst (Sink_Export the_sink sample.ctx "traces" sample.broken
                         (sample.fresh 17))
                  = Some (wrapError "failed to serialize message: %w" []
                            (errorString "proto: field contains invalid UTF-8")))
    by (vm_compute; reflexivity).
  refine (conj Hroot (conj Hs (conj Hfail _))).
  intros a1 e1 a2 e2.
  exact (proj1 (proj2 (failures_and_their_effects the_sink sample.ctx "traces"
                         sample.broken (sample.fresh 17) _ Hroot Hs Hfail)
                  a1 e1 a2 e2 [] e1)).
Defined.

(** C7, as stated, fails.  With two bytes of room on the device the write
    of a thirteen-byte record fails, and the call leaves behind a file that
    was not there before, holding the first two bytes: a side effect that
    is not a directory. *)
Lemma write_failure_leaves_partial_file :
  fst (Sink_Export the_sink sample.ctx "traces" sample.gauge (sample.full 17))
  = Some (wrapError "failed to write file %q: %w" ["data/traces/17"]
            (PathError "write" ["srv"; "data"; "traces"; "17"] syscall.ENOSPC))
  /\ nodes (sample.full 17) !! ["srv"; "data"; "traces"; "17"] = None
  /\ nodes (snd (Sink_Export the_sink sample.ctx "traces" sample.gauge
                   (sample.full 17)))
       !! ["srv"; "data"; "traces"; "17"]
     = Some (File true (take 2 (list_byte_of_string "production=42")))
  /\ ~ kept_or_new_dir (sample.full 17)
        (snd (Sink_Export the_sink sample.ctx "traces" sample.gauge
                (sample.full 17)))
        ["srv"; "data"; "traces"] ["srv"; "data"; "traces"; "17"].
Proof.
  assert (H1 : fst (Sink_Export the_sink sample.ctx "traces" sample.gauge
                      (sample.full 17))
    = Some (wrapError "failed to write file %q: %w" ["data/traces/17"]
              (PathError "write" ["srv"; "data"; "traces"; "17"] syscall.ENOSPC)))
    by (vm_compute; reflexivity).
  assert (H2 : nodes (sample.full 17) !! ["srv"; "data"; "traces"; "17"] = None)
    by (vm_compute; reflexivity).
  assert (H3 : nodes (snd (Sink_Export the_sink sample.ctx "traces" sample.gauge
                   (sample.full 17)))
       !! ["srv"; "data"; "traces"; "17"]
     = Some (File true (take 2 (list_byte_of_string "production=42"))))
    by (vm_compute; reflexivity).
  refine (conj H1 (conj H2 (conj H3 _))).
  intros [Heq | (_ & Hdir & _)].
  - rewrite H2, H3 in Heq. discriminate Heq.
  - rewrite H3 in Hdir. discriminate Hdir.
Qed.

(* ===================================================================== *)
(** * Streams *)
(* ===================================================================== *)

Lemma other_stream_apart (kr k : list string) (stream other n : string) :
  other <> stream -> (kr ++ [other]) `prefix_of` k ->
  ~ k `prefix_of` (kr ++ [stream]) /\ k <> kr ++ [stream; n].
Proof.
  intros Hne Hpre. split.
  - intros Hk. assert (Habs : (kr ++ [other]) `prefix_of` (kr ++ [stream]))
      by now transitivity k.
    apply prefix_app_inv, prefix_cons_inv_1 in Habs. contradiction.
  - intros ->. apply prefix_app_inv, prefix_cons_inv_1 in Hpre. contradiction.
Qed.

Section Streams.
Context {M : Type} `{Message M}.

Lemma Sink_Export_stays (s : Sink) (ctx : context.Context)
    (stream : string) (msg : M) (w : World) :
  proper_root (dir s) -> filepath.plain stream ->
  stays_in_stream w (snd (Sink_Export s ctx stream msg w))
    (os.resolve w (dir s)) stream.
Proof.
  intros Hroot Hs.
  pose proof (Sink_Export_spec s ctx stream msg w Hroot Hs) as Hspec.
  cbn zeta in Hspec.
  set (kr := os.resolve w (dir s)) in *.
  set (ke := kr ++ [stream; strconv.FormatInt (now w) 10]) in *.
  destruct (Sink_Export s ctx stream msg w) as [e w']. cbn [snd].
  destruct Hspec as (w1 & mkdirs & _ & _ & _ & Htr & Hall & _ & Hkept & Hcases).
  (* the calls after the directory step, and the nodes they change *)
  assert (Hrest : exists rest,
             trace w' = trace w ++ mkdirs ++ rest
             /\ Forall (fun c => is_mkdir c = false /\ syscall_path c = ke) rest
             /\ forall k, k <> ke -> nodes w' !! k = nodes w1 !! k).
  { destruct Hcases as [(err & _ & ->)
                       | (_ & [(err & _ & _ & ->) | (b & _ & Hcases)])].
    - exists []. rewrite app_nil_r. repeat split; [assumption | constructor].
    - exists []. rewrite app_nil_r. repeat split; [assumption | constructor].
    - destruct Hcases as [(_ & _ & Hn & _ & Htr2) | (_ & _ & Hn & _ & Htr2)].
      + exists [SysOpen ke 420]. rewrite Htr2, Htr, <- app_assoc.
        repeat split; [|now rewrite Hn].
        constructor; [now split | constructor].
      + exists [SysOpen ke 420; SysWrite ke b]. rewrite Htr2, Htr, <- app_assoc.
        repeat split.
        * constructor; [now split|]. constructor; [now split | constructor].
        * intros k Hne. now rewrite Hn, lookup_insert_ne by congruence. }
  destruct Hrest as (rest & Htr' & Hrest & Hnodes).
  unfold stays_in_stream. rewrite (calls_since_app _ _ _ Htr').
  split.
  - apply Forall_app. split.
    + eapply Forall_impl; [exact Hall|]. cbn beta. intros c [Hc Hp].
      now rewrite Hc.
    + eapply Forall_impl; [exact Hrest|]. cbn beta. intros c [Hc Hp].
      rewrite Hc. exists (strconv.FormatInt (now w) 10). exact Hp.
  - intros other k Hne Hpre.
    destruct (other_stream_apart kr k stream other
                (strconv.FormatInt (now w) 10) Hne Hpre) as [Hnp Hnk].
    fold ke in Hnk. split.
    + rewrite Hnodes by assumption.
      destruct (Hkept k) as [Heq | (_ & _ & Hp)]; [exact Heq | contradiction].
    + apply Forall_app. split.
      * eapply Forall_impl; [exact Hall|]. cbn beta. intros c [_ Hp] Heq.
        rewrite Heq in Hp. contradiction.
      * eapply Forall_impl; [exact Hrest|]. cbn beta. intros c [_ Hp].
        congruence.
Qed.

End Streams.

Section Isolation.
Context {ExportTraceServiceRequest : Type} `{Message ExportTraceServiceRequest}.
Context {ExportMetricsServiceRequest : Type} `{Message ExportMetricsServiceRequest}.
Context {ExportLogsServiceRequest : Type} `{Message ExportLogsServiceRequest}.

(** C8.  With the three services on one sink whose root is proper, each
    [Export] operation works on its own stream only: the trace service on
    [traces], the metrics service on [metrics], the logs service on
    [logs].  Every system call it makes is a [Mkdir] on the way to that
    stream directory or opens or writes an entry directly inside it, and
    nothing at or below the directory of any other stream is called upon
    or changed. *)
Theorem streams_are_disjoint (s : Sink) (ctx : context.Context)
    (treq : ExportTraceServiceRequest) (mreq : ExportMetricsServiceRequest)
    (lreq : ExportLogsServiceRequest) (w : World) :
  proper_root (dir s) ->
  stays_in_stream w
    (snd (traceServer_Export {| trace_sink := s |} ctx treq w))
    (os.resolve w (dir s)) "traces"
  /\ stays_in_stream w
       (snd (metricsServer_Export {| metrics_sink := s |} ctx mreq w))
       (os.resolve w (dir s)) "metrics"
  /\ stays_in_stream w
       (snd (logsServer_Export {| logs_sink := s |} ctx lreq w))
       (os.resolve w (dir s)) "logs".
Proof.
  intros Hroot.
  rewrite traceServer_Export_unfold, metricsServer_Export_unfold,
    logsServer_Export_unfold.
  cbn zeta. cbn [snd trace_sink metrics_sink logs_sink].
  split; [|split];
    match goal with
    | |- stays_in_stream w (snd (Sink_Export s ctx ?st ?req (logged ?op ?txt w))) _ _ =>
        exact (Sink_Export_stays s ctx st req (logged op txt w) Hroot
                 ltac:(repeat split; (reflexivity || discriminate)))
    end.
Qed.

End Isolation.

(** Three requests through the sink of the program, one per service. *)
Lemma streams_are_disjoint_witness :
  proper_root (dir the_sink)
  /\ stays_in_stream (sample.fresh 17)
       (snd (metricsServer_Export {| metrics_sink := the_sink |} sample.ctx
               sample.gauge (sample.fresh 17)))
       (os.resolve (sample.fresh 17) (dir the_sink)) "metrics".
Proof.
  assert (Hroot : proper_root (dir the_sink))
    by (repeat split; (reflexivity || discriminate)).
  refine (conj Hroot _).
  exact (proj1 (proj2 (streams_are_disjoint the_sink sample.ctx
                         sample.span sample.gauge sample.span
                         (sample.fresh 17) Hroot))).
Defined.

(* ===================================================================== *)
(** * [Sink.Export] with any root and any stream name *)
(* ===================================================================== *)

Section AnyArguments.
Context {M : Type} `{Message M}.

(** One call, whatever its arguments: the directory step only adds
    directories on the way to the directory of the destination; after it
    the world is left alone, or the destination is opened, and written to
    if the open succeeds. *)
Lemma Sink_Export_general (s : Sink) (ctx : context.Context)
    (stream : string) (msg : M) (w : World) :
  let kd := os.resolve w (filepath.Dir (dest_path s stream w)) in
  let ke := os.resolve w (dest_path s stream w) in
  exists (w1 : World) (mkdirs : list Syscall),
    same_env w w1 /\ free w1 = free w
    /\ trace w1 = trace w ++ mkdirs
    /\ Forall (fun c => is_mkdir c = true /\ syscall_path c `prefix_of` kd) mkdirs
    /\ (forall k, kept_or_new_dir w w1 kd k)
    /\ ((snd (Sink_Export s ctx stream msg w) = w1
         /\ fst (Sink_Export s ctx stream msg w) <> None)
        \/ (can_open w1 ke = false
            /\ fst (Sink_Export s ctx stream msg w) <> None
            /\ nodes (snd (Sink_Export s ctx stream msg w)) = nodes w1
            /\ trace (snd (Sink_Export s ctx stream msg w))
               = trace w1 ++ [SysOpen ke 420])
        \/ (can_open w1 ke = true
            /\ exists b data,
                 proto_Marshal msg = inl b
                 /\ (fst (Sink_Export s ctx stream msg w) = None -> data = b)
                 /\ nodes (snd (Sink_Export s ctx stream msg w))
                    = <[ke := File true data]> (nodes w1)
                 /\ trace (snd (Sink_Export s ctx stream msg w))
                    = trace w1 ++ [SysOpen ke 420; SysWrite ke b])).
Proof.
  intros kd ke. unfold Sink_Export, bind, time.Now, os.MkdirAll.
  cbn [time.UnixNano]. fold (dest_path s stream w). fold kd.
  pose proof (mkdirAll_spec 493 (rev kd) w) as Hmk.
  rewrite rev_involutive in Hmk.
  destruct (os.mkdirAll (rev kd) 493 w) as [emk w1].
  destruct Hmk as (Henv & Hfree & (mkdirs & Htr & Hall & _) & Hkept & _).
  exists w1, mkdirs.
  refine (conj Henv (conj Hfree (conj Htr (conj Hall (conj Hkept _))))).
  destruct emk as [err|]; [left; now split|].
  destruct (proto_Marshal msg) as [b|err]; [|left; now split].
  pose proof (WriteFile_spec (dest_path s stream w) b 420 w1) as Hwr.
  cbn zeta in Hwr. rewrite (resolve_same_cwd w) in Hwr by apply Henv.
  fold ke in Hwr.
  destruct (os.WriteFile (dest_path s stream w) b 420 w1) as [ew w2].
  destruct Hwr as (_ & Hwr). right.
  destruct (can_open w1 ke).
  - right. split; [reflexivity|].
    destruct Hwr as (He & Hn & _ & Htr2).
    exists b, (take (Nat.min (length b) (room_for w1 ke)) b).
    split; [reflexivity|].
    rewrite owner_writable_0644 in Hn.
    assert (Hn' : nodes w2
                  = <[ke := File true
                         (take (Nat.min (length b) (room_for w1 ke)) b)]>
                      (nodes w1))
      by (rewrite Hn; now destruct (is_file (nodes w1 !! ke))).
    destruct (length b <=? room_for w1 ke)%nat eqn:Hfit; subst ew;
      cbn [fst snd ret]; (split; [|now split]).
    + intros _. apply Nat.leb_le in Hfit.
      now rewrite Nat.min_l, firstn_all by assumption.
    + discriminate.
  - left. split; [reflexivity|].
    destruct Hwr as ((errno & ->) & Hn & _ & Htr2).
    cbn [fst snd ret]. now repeat split.
Qed.

(** For any arguments: the [Mkdir] calls are on the way to the directory of
    the destination, every other call is on the destination, and after a
    successful call the file there holds the encoded message. *)
Lemma Export_calls_and_entry (s : Sink) (ctx : context.Context)
    (stream : string) (msg : M) (w : World) :
  let kd := os.resolve w (filepath.Dir (dest_path s stream w)) in
  let ke := os.resolve w (dest_path s stream w) in
  Forall (fun c => if is_mkdir c then syscall_path c `prefix_of` kd
                   else syscall_path c = ke)
    (calls_since w (snd (Sink_Export s ctx stream msg w)))
  /\ (fst (Sink_Export s ctx stream msg w) = None ->
      exists b, proto_Marshal msg = inl b
                /\ file_data (nodes (snd (Sink_Export s ctx stream msg w)) !! ke)
                   = Some b).
Proof.
  intros kd ke.
  destruct (Sink_Export_general s ctx stream msg w)
    as (w1 & mkdirs & _ & _ & Htr & Hall & _ & Hcases).
  fold kd ke in Hall, Hcases.
  assert (Hmk : Forall (fun c => if is_mkdir c then syscall_path c `prefix_of` kd
                                 else syscall_path c = ke) mkdirs).
  { eapply Forall_impl; [exact Hall|]. cbn beta. intros c [Hc Hp].
    now rewrite Hc. }
  destruct Hcases as [(-> & Hfail) | [(_ & Hfail & _ & Htr2)
                                     | (_ & b & data & Hm & Hdata & Hn & Htr2)]].
  - split; [|contradiction]. now rewrite (calls_since_app _ _ _ Htr).
  - split; [|contradiction].
    rewrite Htr, <- app_assoc in Htr2. rewrite (calls_since_app _ _ _ Htr2).
    apply Forall_app. split; [exact Hmk|]. constructor; [reflexivity|constructor].
  - split.
    + rewrite Htr, <- app_assoc in Htr2. rewrite (calls_since_app _ _ _ Htr2).
      apply Forall_app. split; [exact Hmk|].
      constructor; [reflexivity|]. constructor; [reflexivity|constructor].
    + intros Hok. exists b. split; [exact Hm|].
      rewrite Hn, lookup_insert_eq. cbn [file_data]. now rewrite (Hdata Hok).
Qed.

(** X1.  Whatever the root, the stream name, the message and the outcome,
    a call changes no node that was there before, other than the
    destination itself: every other file keeps its bytes and its mode, and
    every other directory stays as it is. *)
Theorem Export_leaves_other_nodes (s : Sink) (ctx : context.Context)
    (stream : string) (msg : M) (w : World) (k : list string) (x : Node) :
  nodes w !! k = Some x ->
  k <> os.resolve w (dest_path s stream w) ->
  nodes (snd (Sink_Export s ctx stream msg w)) !! k = Some x.
Proof.
  intros Hx Hne.
  destruct (Sink_Export_general s ctx stream msg w)
    as (w1 & mkdirs & _ & _ & _ & _ & Hkept & Hcases).
  pose proof (kept_existing _ _ _ _ _ (Hkept k) Hx) as Hx1.
  destruct Hcases as [(-> & _) | [(_ & _ & -> & _) | (_ & b & data & _ & _ & -> & _)]];
    try exact Hx1.
  now rewrite lookup_insert_ne by congruence.
Qed.

(** X2.  A call never removes anything and never turns one kind of node
    into another: whatever the arguments and the outcome, every directory
    is afterwards exactly as it was, and every file is still a file. *)
Theorem Export_removes_nothing (s : Sink) (ctx : context.Context)
    (stream : string) (msg : M) (w : World) :
  (forall k, is_dir (nodes w !! k) = true ->
             nodes (snd (Sink_Export s ctx stream msg w)) !! k = nodes w !! k)
  /\ files w ⊆ files (snd (Sink_Export s ctx stream msg w)).
Proof.
  destruct (Sink_Export_general s ctx stream msg w)
    as (w1 & mkdirs & _ & _ & _ & _ & Hkept & Hcases).
  set (ke := os.resolve w (dest_path s stream w)) in *.
  split.
  - intros k Hdir.
    destruct (nodes w !! k) as [x|] eqn:Hx; [|discriminate Hdir].
    pose proof (kept_existing _ _ _ _ _ (Hkept k) Hx) as Hx1.
    destruct Hcases as [(-> & _) | [(_ & _ & -> & _)
                                   | (Hopen & b & data & _ & _ & -> & _)]];
      try exact Hx1.
    destruct (decide (k = ke)) as [-> | Hne].
    + exfalso. unfold can_open in Hopen. rewrite Hx1 in Hopen.
      destruct x; [discriminate Hopen | discriminate Hdir].
    + now rewrite lookup_insert_ne by congruence.
  - intros k Hk. apply elem_of_files in Hk. apply elem_of_files.
    destruct (nodes w !! k) as [x|] eqn:Hx; [|discriminate Hk].
    pose proof (kept_existing _ _ _ _ _ (Hkept k) Hx) as Hx1.
    destruct Hcases as [(-> & _) | [(_ & _ & -> & _)
                                   | (_ & b & data & _ & _ & -> & _)]];
      try (now rewrite Hx1).
    destruct (decide (k = ke)) as [-> | Hne].
    + now rewrite lookup_insert_eq.
    + rewrite lookup_insert_ne by congruence. now rewrite Hx1.
Qed.

End AnyArguments.

(** A stored record survives a later request for another stream. *)
Lemma Export_leaves_other_nodes_witness :
  nodes (sample.once 17) !! ["srv"; "data"; "metrics"; "17"]
  = Some (File true (list_byte_of_string "span"))
  /\ ["srv"; "data"; "metrics"; "17"]
     <> os.resolve (sample.once 17) (dest_path the_sink "logs" (sample.once 17))
  /\ nodes (snd (Sink_Export the_sink sample.ctx "logs" sample.gauge
                   (sample.once 17)))
       !! ["srv"; "data"; "metrics"; "17"]
     = Some (File true (list_byte_of_string "span")).
Proof.
  assert (Hx : nodes (sample.once 17) !! ["srv"; "data"; "metrics"; "17"]
               = Some (File true (list_byte_of_string "span")))
    by (vm_compute; reflexivity).
  assert (Hne : ["srv"; "data"; "metrics"; "17"]
                <> os.resolve (sample.once 17)
                     (dest_path the_sink "logs" (sample.once 17)))
    by (vm_compute; discriminate).
  refine (conj Hx (conj Hne _)).
  exact (Export_leaves_other_nodes the_sink sample.ctx "logs" sample.gauge
           (sample.once 17) _ _ Hx Hne).
Defined.

(* ===================================================================== *)
(** * Logging and storage *)
(* ===================================================================== *)

Lemma Mkdir_record_log (l : LogEntry) (k : list string) (perm : Z) (w : World) :
  os.Mkdir k perm (record_log l w)
  = (fst (os.Mkdir k perm w), record_log l (snd (os.Mkdir k perm w))).
Proof.
  unfold os.Mkdir. cbn [nodes record_syscall record_log].
  destruct (nodes w !! k); [reflexivity|].
  destruct (nodes w !! os.parent k) as [[[]|]|]; reflexivity.
Qed.

Lemma mkdirAll_record_log (l : LogEntry) (perm : Z) (rk : list string) :
  forall w : World,
    os.mkdirAll rk perm (record_log l w)
    = (fst (os.mkdirAll rk perm w), record_log l (snd (os.mkdirAll rk perm w))).
Proof.
  assert (Hstep : forall (k : list string) (w1 : World),
             (let '(err, w2) := os.Mkdir k perm (record_log l w1) in
              match err with
              | None => (None, w2)
              | Some e => match nodes w2 !! k with
                          | Some (Dir _) => (None, w2)
                          | _ => (Some e, w2)
                          end
              end)
             = (fst (let '(err, w2) := os.Mkdir k perm w1 in
                     match err with
                     | None => (None, w2)
                     | Some e => match nodes w2 !! k with
                                 | Some (Dir _) => (None, w2)
                                 | _ => (Some e, w2)
                                 end
                     end),
                record_log l
                  (snd (let '(err, w2) := os.Mkdir k perm w1 in
                        match err with
                        | None => (None, w2)
                        | Some e => match nodes w2 !! k with
                                    | Some (Dir _) => (None, w2)
                                    | _ => (Some e, w2)
                                    end
                        end)))).
  { intros k w1. rewrite Mkdir_record_log.
    destruct (os.Mkdir k perm w1) as [[e|] w2]; cbn [fst snd]; [|reflexivity].
    cbn [nodes record_log].
    destruct (nodes w2 !! k) as [[]|]; reflexivity. }
  induction rk as [|c rk IH]; intros w; cbn [os.mkdirAll];
    cbn [nodes record_log];
    destruct (nodes w !! rev _) as [[]|]; try reflexivity.
  - apply Hstep.
  - rewrite IH. destruct (os.mkdirAll rk perm w) as [[err|] w1];
      cbn [fst snd]; [reflexivity|]. apply Hstep.
Qed.

Lemma WriteFile_record_log (l : LogEntry) (name : string) (data : list byte)
    (perm : Z) (w : World) :
  os.WriteFile name data perm (record_log l w)
  = (fst (os.WriteFile name data perm w),
     record_log l (snd (os.WriteFile name data perm w))).
Proof.
  unfold os.WriteFile, bind, os.OpenFile_trunc.
  change (os.resolve (record_log l w) name) with (os.resolve w name).
  cbn [nodes record_syscall record_log].
  destruct (nodes w !! os.resolve w name) as [[dw|[] old]|]; try reflexivity.
  - unfold os.Write.
    cbn [nodes free record_syscall record_log set_free set_nodes].
    rewrite lookup_insert_eq.
    destruct (length data <=? free w + length old)%nat; reflexivity.
  - destruct (nodes w !! os.parent (os.resolve w name)) as [[[]|]|];
      try reflexivity.
    unfold os.Write.
    cbn [nodes free record_syscall record_log set_free set_nodes].
    rewrite lookup_insert_eq.
    destruct (length data <=? free w)%nat; reflexivity.
Qed.

Section LoggingAndStorage.
Context {ExportTraceServiceRequest : Type} `{Message ExportTraceServiceRequest}.
Context {ExportMetricsServiceRequest : Type} `{Message ExportMetricsServiceRequest}.
Context {ExportLogsServiceRequest : Type} `{Message ExportLogsServiceRequest}.

(** A line more in the log makes no difference to [Sink.Export]. *)
Lemma Sink_Export_record_log {M : Type} `{Message M} (l : LogEntry) (s : Sink)
    (ctx : context.Context) (stream : string) (msg : M) (w : World) :
  Sink_Export s ctx stream msg (record_log l w)
  = (fst (Sink_Export s ctx stream msg w),
     record_log l (snd (Sink_Export s ctx stream msg w))).
Proof.
  unfold Sink_Export, bind, time.Now, os.MkdirAll. cbn [time.UnixNano].
  change (now (record_log l w)) with (now w).
  match goal with
  | |- context [os.resolve (record_log l w) ?d] =>
      change (os.resolve (record_log l w) d) with (os.resolve w d)
  end.
  rewrite mkdirAll_record_log.
  destruct (os.mkdirAll _ 493 w) as [[err|] w1]; cbn [fst snd ret];
    [reflexivity|].
  destruct (proto_Marshal msg) as [b|err]; [|reflexivity].
  rewrite WriteFile_record_log.
  destruct (os.WriteFile _ b 420 w1) as [[err|] w2]; reflexivity.
Qed.

(** X3.  The log line of a handler has no part in what happens to the
    request: the response, and the world apart from the log, are those of
    [Sink.Export] run on the world as it was before the line was written;
    the log is that world's log with the one line inserted. *)
Theorem handlers_store_as_the_sink_does
    (ts : traceServer) (ms : metricsServer) (ls : logsServer)
    (ctx : context.Context)
    (treq : ExportTraceServiceRequest) (mreq : ExportMetricsServiceRequest)
    (lreq : ExportLogsServiceRequest) (w : World) :
  traceServer_Export ts ctx treq w
  = (match fst (Sink_Export (trace_sink ts) ctx "traces" treq w) with
     | Some _ => inr (statusError codes.Internal "error writing data")
     | None => inl {| collectortracepb.partial_success := None |}
     end,
     record_log {| severity := Info; format := "trace.Export %v";
                   args := [prototext_Format treq] |}
       (snd (Sink_Export (trace_sink ts) ctx "traces" treq w)))
  /\ metricsServer_Export ms ctx mreq w
     = (match fst (Sink_Export (metrics_sink ms) ctx "metrics" mreq w) with
        | Some _ => inr (statusError codes.Internal "error writing data")
        | None => inl {| collectormetricspb.partial_success := None |}
        end,
        record_log {| severity := Info; format := "metrics.Export %v";
                      args := [prototext_Format mreq] |}
          (snd (Sink_Export (metrics_sink ms) ctx "metrics" mreq w)))
  /\ logsServer_Export ls ctx lreq w
     = (match fst (Sink_Export (logs_sink ls) ctx "logs" lreq w) with
        | Some _ => inr (statusError codes.Internal "error writing data")
        | None => inl {| collectorlogspb.partial_success := None |}
        end,
        record_log {| severity := Info; format := "logs.Export %v";
                      args := [prototext_Format lreq] |}
          (snd (Sink_Export (logs_sink ls) ctx "logs" lreq w))).
Proof.
  rewrite traceServer_Export_unfold, metricsServer_Export_unfold,
    logsServer_Export_unfold.
  unfold logged. rewrite !Sink_Export_record_log. cbn zeta. cbn [fst snd].
  repeat split.
Qed.

End LoggingAndStorage.

(* ===================================================================== *)
(** * Stream names that are not plain *)
(* ===================================================================== *)

Lemma plain_not_rooted (e : string) : filepath.plain e -> filepath.rooted e = false.
Proof.
  intros (Hne & Hsep & _). destruct e as [|c e]; [contradiction|].
  cbn [filepath.has_sep] in Hsep. now apply orb_false_iff in Hsep as [? _].
Qed.

Lemma up_to_last_sep_no_sep (e : string) :
  filepath.has_sep e = false -> filepath.up_to_last_sep e = EmptyString.
Proof.
  destruct e as [|c e]; [reflexivity|]. cbn [filepath.has_sep filepath.up_to_last_sep].
  intros [Hc He]%orb_false_iff. now rewrite He, Hc.
Qed.

Lemma Dir_of_plain (e : string) : filepath.plain e -> filepath.Dir e = ".".
Proof.
  intros (_ & Hsep & _). unfold filepath.Dir.
  now rewrite up_to_last_sep_no_sep.
Qed.

Lemma resolve_dot (w : World) : os.resolve w "." = cwd w.
Proof. unfold os.resolve. cbn. apply rev_involutive. Qed.

Lemma resolve_plain (w : World) (e : string) :
  filepath.plain e -> os.resolve w e = cwd w ++ [e].
Proof.
  intros He. unfold os.resolve.
  rewrite plain_not_rooted, split_no_sep by (assumption || apply He).
  cbn [fold_left]. rewrite walk_plain by assumption.
  cbn [rev]. now rewrite rev_involutive.
Qed.

(** A root of one plain element followed by [..] and a plain name: the two
    first elements cancel. *)
Lemma Join_dotdot (r n : string) :
  filepath.plain r -> filepath.plain n -> filepath.Join [r; ".."; n] = n.
Proof.
  intros Hr Hn. pose proof Hr as (Hne & Hsep & _ & Hdd).
  cbn [filepath.Join]. rewrite bool_decide_eq_false_2 by assumption.
  cbn [filepath.join].
  change (r +:+ String filepath.Separator (".." +:+ String filepath.Separator n))
    with (r +:+ String filepath.Separator
            (String "." (String "." (String filepath.Separator n)))).
  unfold filepath.Clean.
  destruct (r +:+ _) eqn:Happ; [now apply app_sep_nonempty in Happ|].
  rewrite <- Happ. rewrite rooted_app, plain_not_rooted by assumption.
  rewrite split_app_sep, (split_no_sep r) by assumption.
  change (String "." (String "." (String filepath.Separator n)))
    with (".." +:+ String filepath.Separator n).
  rewrite split_app_sep, (split_no_sep n) by apply Hn.
  change (filepath.split "..") with [".."]. unfold filepath.clean_elems.
  cbn [app fold_left].
  rewrite (clean_step_plain false [] r) by assumption.
  assert (Hpop : filepath.clean_step false [r] ".." = []).
  { unfold filepath.clean_step. cbn [orb].
    rewrite (bool_decide_eq_false_2 (".." = EmptyString)) by discriminate.
    rewrite (bool_decide_eq_false_2 (".." = ".")) by discriminate.
    rewrite (bool_decide_eq_true_2 (".." = "..")) by reflexivity.
    cbn [orb]. now rewrite bool_decide_eq_false_2 by assumption. }
  rewrite Hpop, clean_step_plain by assumption.
  reflexivity.
Qed.

(** An empty stream name between a proper root and a plain name leaves no
    trace in the path. *)
Lemma Join_empty_stream (root n : string) :
  proper_root root -> filepath.plain n ->
  filepath.Join [root; EmptyString; n] = root +:+ String filepath.Separator n.
Proof.
  intros Hroot Hn.
  pose proof (proper_root_nonempty _ Hroot) as Hne.
  pose proof (proper_root_elems _ Hroot) as Helems.
  cbn [filepath.Join]. rewrite bool_decide_eq_false_2 by assumption.
  cbn [filepath.join].
  change (EmptyString +:+ String filepath.Separator n)
    with (String filepath.Separator n).
  unfold filepath.Clean.
  destruct (root +:+ _) eqn:Happ; [now apply app_sep_nonempty in Happ|].
  rewrite <- Happ. rewrite rooted_app by assumption.
  rewrite split_app_sep. cbn [filepath.split].
  change (filepath.IsPathSeparator filepath.Separator) with true. cbn iota.
  rewrite (split_no_sep n) by apply Hn.
  change (filepath.split root ++ [EmptyString; n])
    with (filepath.split root ++ [EmptyString] ++ [n]).
  rewrite app_assoc, clean_elems_snoc, clean_elems_trailing by assumption.
  rewrite render_snoc by assumption.
  f_equal. destruct Hroot as (Hc & _). destruct root; [contradiction | exact Hc].
Qed.

Lemma Dir_snoc (root n : string) :
  proper_root root -> filepath.plain n ->
  filepath.Dir (root +:+ String filepath.Separator n) = root.
Proof.
  intros Hroot Hn. unfold filepath.Dir.
  rewrite up_to_last_sep_app by apply Hn.
  rewrite Clean_trailing_sep by now apply proper_root_nonempty.
  apply Hroot.
Qed.

Section OddStreams.
Context {M : Type} `{Message M}.

(** X4.  The stream name is not checked.  With a root of one plain element
    and [..] as the stream name, the destination is [<n>] in the working
    directory, beside the root and not inside it: the only directory
    looked for or made is the working directory, every open and write is
    on [<cwd>/<n>], and after a successful call the record is there. *)
Theorem dotdot_stream_leaves_the_root (s : Sink) (ctx : context.Context)
    (msg : M) (w : World) :
  filepath.plain (dir s) ->
  let n := strconv.FormatInt (now w) 10 in
  let r := Sink_Export s ctx ".." msg w in
  dest_path s ".." w = n
  /\ os.resolve w (dest_path s ".." w) = cwd w ++ [n]
  /\ Forall (fun c => if is_mkdir c then syscall_path c `prefix_of` cwd w
                      else syscall_path c = cwd w ++ [n])
       (calls_since w (snd r))
  /\ (fst r = None ->
      exists b, proto_Marshal msg = inl b
                /\ file_data (nodes (snd r) !! (cwd w ++ [n])) = Some b).
Proof.
  intros Hroot n r.
  assert (Hp : dest_path s ".." w = n).
  { unfold dest_path. apply Join_dotdot; [assumption | apply FormatInt_plain]. }
  pose proof (Export_calls_and_entry s ctx ".." msg w) as Hcalls.
  cbn zeta in Hcalls. rewrite Hp in Hcalls.
  rewrite Dir_of_plain, resolve_dot, resolve_plain in Hcalls
    by apply FormatInt_plain.
  split; [exact Hp|]. split; [|exact Hcalls].
  rewrite Hp. apply resolve_plain, FormatInt_plain.
Qed.

(** X5.  With the empty string as the stream name and a proper root, the
    record goes straight into the root: the destination is [<root>/<n>],
    the only directories looked for or made are the root and those above
    it, and every open and write is on [<root>/<n>]. *)
Theorem empty_stream_writes_into_the_root (s : Sink) (ctx : context.Context)
    (msg : M) (w : World) :
  proper_root (dir s) ->
  let n := strconv.FormatInt (now w) 10 in
  let r := Sink_Export s ctx EmptyString msg w in
  dest_path s EmptyString w = dir s +:+ "/" +:+ n
  /\ os.resolve w (dest_path s EmptyString w) = os.resolve w (dir s) ++ [n]
  /\ Forall (fun c => if is_mkdir c
                      then syscall_path c `prefix_of` os.resolve w (dir s)
                      else syscall_path c = os.resolve w (dir s) ++ [n])
       (calls_since w (snd r))
  /\ (fst r = None ->
      exists b, proto_Marshal msg = inl b
                /\ file_data (nodes (snd r) !! (os.resolve w (dir s) ++ [n]))
                   = Some b).
Proof.
  intros Hroot n r.
  assert (Hp : dest_path s EmptyString w = dir s +:+ String filepath.Separator n).
  { unfold dest_path. apply Join_empty_stream; [assumption | apply FormatInt_plain]. }
  assert (Hk : os.resolve w (dir s +:+ String filepath.Separator n)
               = os.resolve w (dir s) ++ [n]).
  { apply resolve_snoc; [now apply proper_root_nonempty | apply FormatInt_plain]. }
  pose proof (Export_calls_and_entry s ctx EmptyString msg w) as Hcalls.
  cbn zeta in Hcalls. rewrite Hp in Hcalls.
  rewrite Dir_snoc, Hk in Hcalls by (assumption || apply FormatInt_plain).
  split; [exact Hp|]. split; [|exact Hcalls].
  now rewrite Hp.
Qed.

End OddStreams.

Lemma dotdot_stream_leaves_the_root_witness :
  filepath.plain (dir the_sink)
  /\ dest_path the_sink ".." (sample.fresh 17) = "17"
  /\ nodes (snd (Sink_Export the_sink sample.ctx ".." sample.span
                   (sample.fresh 17))) !! ["srv"; "17"]
     = Some (File true (list_byte_of_string "span")).
Proof.
  assert (Hroot : filepath.plain (dir the_sink))
    by (repeat split; (reflexivity || discriminate)).
  refine (conj Hroot (conj _ _)).
  - exact (proj1 (dotdot_stream_leaves_the_root the_sink sample.ctx sample.span
                    (sample.fresh 17) Hroot)).
  - vm_compute. reflexivity.
Defined.

Lemma empty_stream_writes_into_the_root_witness :
  proper_root (dir the_sink)
  /\ dest_path the_sink EmptyString (sample.fresh 17) = "data/17".
Proof.
  assert (Hroot : proper_root (dir the_sink))
    by (repeat split; (reflexivity || discriminate)).
  refine (conj Hroot _).
  exact (proj1 (empty_stream_writes_into_the_root the_sink sample.ctx
                  sample.span (sample.fresh 17) Hroot)).
Defined.

(* ===================================================================== *)
(** * Failures, one kind at a time *)
(* ===================================================================== *)

Section NamedFailures.
Context {M : Type} `{Message M}.
Import syscall.

(** X6.  A regular file in the place of the storage root: the call fails
    on directory creation with [ENOTDIR] for the root, whatever the
    message, and the world is exactly as before: not one system call is
    made. *)
Theorem file_in_place_of_root (s : Sink) (ctx : context.Context)
    (stream : string) (msg : M) (w : World) (fw : bool) (d : list byte) :
  proper_root (dir s) -> filepath.plain stream ->
  nodes w !! os.resolve w (dir s) = Some (File fw d) ->
  nodes w !! (os.resolve w (dir s) ++ [stream]) = None ->
  Sink_Export s ctx stream msg w
  = (Some (wrapError "failed to create directory %q: %w"
             [dir s +:+ "/" +:+ stream]
             (PathError "mkdir" (os.resolve w (dir s)) ENOTDIR)), w).
Proof.
  intros Hroot Hs Hfile Hnone.
  rewrite Sink_Export_unfold by assumption.
  rewrite rev_unit. cbn [os.mkdirAll rev]. rewrite rev_involutive, Hnone.
  assert (Hparent : os.mkdirAll (rev (os.resolve w (dir s))) 493 w
                    = (Some (PathError "mkdir" (os.resolve w (dir s)) ENOTDIR), w)).
  { destruct (rev (os.resolve w (dir s))) as [|c rk] eqn:Hrev;
      cbn [os.mkdirAll]; rewrite <- Hrev, rev_involutive, Hfile; reflexivity. }
  rewrite Hparent. reflexivity.
Qed.

(** X7.  The stream directory is there and the message can be encoded, but
    the entry cannot be opened: it is a directory, a read-only file, or
    missing from a read-only stream directory.  The call fails on the write
    with [EISDIR] in the first case and [EACCES] in the others; the one
    system call made is the open, and nothing in the file tree, on the
    device, on the clock or in the log has changed. *)
Theorem entry_cannot_be_opened (s : Sink) (ctx : context.Context)
    (stream : string) (msg : M) (b : list byte) (w : World) :
  proper_root (dir s) -> filepath.plain stream ->
  let ke := os.resolve w (dir s) ++ [stream; strconv.FormatInt (now w) 10] in
  is_dir (nodes w !! (os.resolve w (dir s) ++ [stream])) = true ->
  proto_Marshal msg = inl b ->
  can_open w ke = false ->
  Sink_Export s ctx stream msg w
  = (Some (wrapError "failed to write file %q: %w"
             [entry_path (dir s) stream (now w)]
             (PathError "open" ke
                (if is_dir (nodes w !! ke) then EISDIR else EACCES))),
     record_syscall (SysOpen ke 420) w).
Proof.
  intros Hroot Hs ke Hdir Hm Hopen.
  rewrite Sink_Export_dir_exists by assumption. rewrite Hm.
  unfold os.WriteFile, bind, os.OpenFile_trunc.
  rewrite resolve_entry by assumption. fold ke.
  cbn [nodes record_syscall].
  unfold can_open in Hopen.
  destruct (nodes w !! ke) as [[dw|[] old]|] eqn:Hke; cbn [is_dir ret];
    try reflexivity; try discriminate Hopen.
  unfold ke in Hopen |- *. rewrite entry_in_stream_dir, parent_snoc in *.
  destruct (nodes w !! (os.resolve w (dir s) ++ [stream])) as [[[]|]|];
    try discriminate Hopen; try discriminate Hdir.
  reflexivity.
Qed.

(** X8.  A message whose encoding has no bytes is stored as an empty file,
    and that needs no room on the device: with the stream directory in
    place and the entry openable the call succeeds however full the device
    is. *)
Theorem empty_record_needs_no_room (s : Sink) (ctx : context.Context)
    (stream : string) (msg : M) (w : World) :
  proper_root (dir s) -> filepath.plain stream ->
  let ke := os.resolve w (dir s) ++ [stream; strconv.FormatInt (now w) 10] in
  is_dir (nodes w !! (os.resolve w (dir s) ++ [stream])) = true ->
  proto_Marshal msg = inl [] ->
  can_open w ke = true ->
  fst (Sink_Export s ctx stream msg w) = None
  /\ nodes (snd (Sink_Export s ctx stream msg w)) !! ke = Some (File true []).
Proof.
  intros Hroot Hs ke Hdir Hm Hopen.
  destruct (Sink_Export_into_dir s ctx stream msg [] w Hroot Hs Hdir Hm Hopen)
    as (Hok & Hn & _); [cbn; lia|].
  split; [exact Hok|]. fold ke in Hn. now rewrite Hn, lookup_insert_eq.
Qed.

End NamedFailures.

Lemma file_in_place_of_root_witness :
  proper_root (dir the_sink) /\ filepath.plain "logs"
  /\ nodes (sample.blocked 17) !! os.resolve (sample.blocked 17) (dir the_sink)
     = Some (File true [])
  /\ nodes (sample.blocked 17)
       !! (os.resolve (sample.blocked 17) (dir the_sink) ++ ["logs"]) = None
  /\ snd (Sink_Export the_sink sample.ctx "logs" sample.gauge (sample.blocked 17))
     = sample.blocked 17.
Proof.
  assert (Hroot : proper_root (dir the_sink))
    by (repeat split; (reflexivity || discriminate)).
  assert (Hs : filepath.plain "logs")
    by (repeat split; (reflexivity || discriminate)).
  assert (Hfile : nodes (sample.blocked 17)
                    !! os.resolve (sample.blocked 17) (dir the_sink)
                  = Some (File true []))
    by (vm_compute; reflexivity).
  assert (Hnone : nodes (sample.blocked 17)
                    !! (os.resolve (sample.blocked 17) (dir the_sink) ++ ["logs"])
                  = None)
    by (vm_compute; reflexivity).
  refine (conj Hroot (conj Hs (conj Hfile (conj Hnone _)))).
  rewrite (file_in_place_of_root the_sink sample.ctx "logs" sample.gauge
             (sample.blocked 17) true [] Hroot Hs Hfile Hnone).
  reflexivity.
Defined.

Lemma entry_cannot_be_opened_witness :
  proper_root (dir the_sink) /\ filepath.plain "traces"
  /\ is_dir (nodes (sample.readonly 17)
               !! (os.resolve (sample.readonly 17) (dir the_sink) ++ ["traces"]))
     = true
  /\ proto_Marshal sample.gauge = inl (list_byte_of_string "production=42")
  /\ can_open (sample.readonly 17)
       (os.resolve (sample.readonly 17) (dir the_sink)
        ++ ["traces"; strconv.FormatInt (now (sample.readonly 17)) 10]) = false
  /\ fst (Sink_Export the_sink sample.ctx "traces" sample.gauge
            (sample.readonly 17))
     = Some (wrapError "failed to write file %q: %w" ["data/traces/17"]
               (PathError "open" ["srv"; "data"; "traces"; "17"] syscall.EACCES)).
Proof.
  assert (Hroot : proper_root (dir the_sink))
    by (repeat split; (reflexivity || discriminate)).
  assert (Hs : filepath.plain "traces")
    by (repeat split; (reflexivity || discriminate)).
  assert (Hdir : is_dir (nodes (sample.readonly 17)
                   !! (os.resolve (sample.readonly 17) (dir the_sink)
                       ++ ["traces"])) = true)
    by (vm_compute; reflexivity).
  assert (Hopen : can_open (sample.readonly 17)
                    (os.resolve (sample.readonly 17) (dir the_sink)
                     ++ ["traces"; strconv.FormatInt (now (sample.readonly 17)) 10])
                  = false)
    by (vm_compute; reflexivity).
  assert (Hm : proto_Marshal sample.gauge
               = inl (list_byte_of_string "production=42")) by reflexivity.
  refine (conj Hroot (conj Hs (conj Hdir (conj Hm (conj Hopen _))))).
  rewrite (entry_cannot_be_opened the_sink sample.ctx "traces" sample.gauge
             (list_byte_of_string "production=42") (sample.readonly 17)
             Hroot Hs Hdir Hm Hopen).
  vm_compute. reflexivity.
Defined.

Lemma empty_record_needs_no_room_witness :
  proper_root (dir the_sink) /\ filepath.plain "metrics"
  /\ free (sample.once_full 17) = 0%nat
  /\ is_dir (nodes (sample.once_full 17)
               !! (os.resolve (sample.once_full 17) (dir the_sink) ++ ["metrics"]))
     = true
  /\ proto_Marshal sample.nothing = inl []
  /\ can_open (sample.once_full 17)
       (os.resolve (sample.once_full 17) (dir the_sink)
        ++ ["metrics"; strconv.FormatInt (now (sample.once_full 17)) 10]) = true
  /\ fst (Sink_Export the_sink sample.ctx "metrics" sample.nothing
            (sample.once_full 17)) = None.
Proof.
  assert (Hroot : proper_root (dir the_sink))
    by (repeat split; (reflexivity || discriminate)).
  assert (Hs : filepath.plain "metrics")
    by (repeat split; (reflexivity || discriminate)).
  assert (Hfree : free (sample.once_full 17) = 0%nat) by reflexivity.
  assert (Hdir : is_dir (nodes (sample.once_full 17)
                   !! (os.resolve (sample.once_full 17) (dir the_sink)
                       ++ ["metrics"])) = true)
    by (vm_compute; reflexivity).
  assert (Hopen : can_open (sample.once_full 17)
                    (os.resolve (sample.once_full 17) (dir the_sink)
                     ++ ["metrics"; strconv.FormatInt (now (sample.once_full 17)) 10])
                  = true)
    by (vm_compute; reflexivity).
  assert (Hm : proto_Marshal sample.nothing = inl []) by reflexivity.
  refine (conj Hroot (conj Hs (conj Hfree (conj Hdir (conj Hm (conj Hopen _)))))).
  exact (proj1 (empty_record_needs_no_room the_sink sample.ctx "metrics"
                  sample.nothing (sample.once_full 17) Hroot Hs Hdir Hm
                  Hopen)).
Defined.

(* ===================================================================== *)
(** * Requests of different services, one after the other *)
(* ===================================================================== *)

Section AcrossServices.
Context {ExportTraceServiceRequest : Type} `{Message ExportTraceServiceRequest}.
Context {ExportMetricsServiceRequest : Type} `{Message ExportMetricsServiceRequest}.

Lemma handler_ok_sink_ok {R : Type} (empty : R) (e : option error) :
  match e with Some _ => inr generic_failure | None => inl empty end
  = (inl empty : R + error) -> e = None.
Proof. destruct e; [discriminate | reflexivity]. Qed.

(** X9.  The trace service stores a request, then the metrics service
    handles one, at any clock reading, the same nanosecond included.
    Whatever becomes of the second request, the stored trace record is
    untouched; and if the second request succeeds its record is stored
    beside it, under [metrics]. *)
Theorem services_do_not_overwrite_each_other (s : Sink) (ctx : context.Context)
    (treq : ExportTraceServiceRequest) (mreq : ExportMetricsServiceRequest)
    (b1 : list byte) (t2 : Z) (w : World) :
  proper_root (dir s) ->
  proto_Marshal treq = inl b1 ->
  let r1 := traceServer_Export {| trace_sink := s |} ctx treq w in
  let r2 := metricsServer_Export {| metrics_sink := s |} ctx mreq
              (set_now t2 (snd r1)) in
  fst r1 = inl {| collectortracepb.partial_success := None |} ->
  file_data (nodes (snd r2)
               !! (os.resolve w (dir s)
                   ++ ["traces"; strconv.FormatInt (now w) 10])) = Some b1
  /\ (fst r2 = inl {| collectormetricspb.partial_success := None |} ->
      exists b2,
        proto_Marshal mreq = inl b2
        /\ file_data (nodes (snd r2)
                        !! (os.resolve w (dir s)
                            ++ ["metrics"; strconv.FormatInt t2 10])) = Some b2).
Proof.
  intros Hroot Hm1 r1 r2 Hok1.
  assert (Htraces : filepath.plain "traces")
    by (repeat split; (reflexivity || discriminate)).
  assert (Hmetrics : filepath.plain "metrics")
    by (repeat split; (reflexivity || discriminate)).
  subst r1 r2. rewrite traceServer_Export_unfold in *.
  rewrite metricsServer_Export_unfold. cbn zeta in *. cbn [fst snd] in *.
  cbn [trace_sink metrics_sink] in *.
  apply handler_ok_sink_ok in Hok1.
  set (wl := logged "trace.Export %v" (prototext_Format treq) w) in *.
  destruct (Sink_Export_success s ctx "traces" treq wl Hroot Htraces Hok1)
    as (b & w1a & Hm & _ & _ & _ & _ & _ & Hnodes & _).
  assert (b = b1) by congruence. subst b.
  pose proof (Sink_Export_same_env s ctx "traces" treq wl) as (_ & Hcwd & _).
  set (w1 := snd (Sink_Export s ctx "traces" treq wl)) in *.
  set (w2 := logged "metrics.Export %v" (prototext_Format mreq) (set_now t2 w1)).
  change (os.resolve wl (dir s)) with (os.resolve w (dir s)) in Hnodes.
  change (now wl) with (now w) in Hnodes.
  set (k1 := os.resolve w (dir s) ++ ["traces"; strconv.FormatInt (now w) 10]) in *.
  assert (Hres : os.resolve w2 (dir s) = os.resolve w (dir s)).
  { change (os.resolve w2 (dir s)) with (os.resolve w1 (dir s)).
    now apply (resolve_same_cwd wl). }
  assert (Hk2 : os.resolve w2 (dest_path s "metrics" w2)
                = os.resolve w (dir s) ++ ["metrics"; strconv.FormatInt t2 10]).
  { unfold dest_path. rewrite Join_entry, resolve_entry, Hres by assumption.
    reflexivity. }
  assert (Hfile1 : nodes w2 !! k1 = Some (File true b1)).
  { change (nodes w2) with (nodes w1). now rewrite Hnodes, lookup_insert_eq. }
  assert (Hne : k1 <> os.resolve w2 (dest_path s "metrics" w2)).
  { rewrite Hk2. unfold k1. intros Heq. apply app_inv_head in Heq.
    discriminate Heq. }
  split.
  - destruct (Sink_Export_general s ctx "metrics" mreq w2)
      as (w2a & mkdirs & _ & _ & _ & _ & Hkept & Hcases).
    pose proof (kept_existing _ _ _ _ _ (Hkept k1) Hfile1) as Hx.
    destruct Hcases as [(-> & _) | [(_ & _ & -> & _)
                                   | (_ & b & data & _ & _ & -> & _)]].
    + now rewrite Hx.
    + now rewrite Hx.
    + rewrite lookup_insert_ne by congruence. now rewrite Hx.
  - intros Hok2. apply handler_ok_sink_ok in Hok2.
    destruct (Sink_Export_success s ctx "metrics" mreq w2 Hroot Hmetrics Hok2)
      as (b2 & w2a & Hm2 & _ & _ & _ & _ & _ & Hnodes2 & _).
    exists b2. split; [exact Hm2|].
    rewrite Hres in Hnodes2. change (now w2) with t2 in Hnodes2.
    now rewrite Hnodes2, lookup_insert_eq.
Qed.

End AcrossServices.

Lemma services_do_not_overwrite_each_other_witness :
  proper_root (dir the_sink)
  /\ proto_Marshal sample.span = inl (list_byte_of_string "span")
  /\ fst (traceServer_Export {| trace_sink := the_sink |} sample.ctx sample.span
            (sample.fresh 17))
     = inl {| collectortracepb.partial_success := None |}
  /\ file_data
       (nodes (snd (metricsServer_Export {| metrics_sink := the_sink |}
                      sample.ctx sample.gauge
                      (set_now 17
                         (snd (traceServer_Export {| trace_sink := the_sink |}
                                 sample.ctx sample.span (sample.fresh 17))))))
          !! (os.resolve (sample.fresh 17) (dir the_sink)
              ++ ["traces"; strconv.FormatInt (now (sample.fresh 17)) 10]))
     = Some (list_byte_of_string "span").
Proof.
  assert (Hroot : proper_root (dir the_sink))
    by (repeat split; (reflexivity || discriminate)).
  assert (Hm : proto_Marshal sample.span = inl (list_byte_of_string "span"))
    by reflexivity.
  assert (Hok : fst (traceServer_Export {| trace_sink := the_sink |} sample.ctx
                       sample.span (sample.fresh 17))
                = inl {| collectortracepb.partial_success := None |})
    by (vm_compute; reflexivity).
  refine (conj Hroot (conj Hm (conj Hok _))).
  exact (proj1 (services_do_not_overwrite_each_other the_sink sample.ctx
                  sample.span sample.gauge (list_byte_of_string "span") 17
                  (sample.fresh 17) Hroot Hm Hok)).
Defined.

(* ===================================================================== *)
(** * How the process ends *)
(* ===================================================================== *)

(** X10.  The process keeps running exactly as long as the flags parsed,
    the listener is bound, no interrupt has arrived and [Serve] has not
    returned; in every other case [main] comes to an end. *)
Theorem main_keeps_serving_iff (env : Env) :
  main env = None
  <-> flags env = FlagsOk /\ listen_err env = None
      /\ interrupted env = false /\ serve_done env = None.
Proof.
  unfold main, run, flag_Parse, select_done_or_listenErr, signal.NotifyContext,
    context.Err.
  destruct env as [[] [le|] [] [[se|]|] []]; cbn;
    split; try discriminate; try (intros (?&?&?&?); discriminate);
    repeat split.
Qed.

(** X11.  When [main] ends, it has printed one line, the error that [run]
    returned, exactly when the exit status is 1; with status 0 or 2 (the
    only others) it has printed nothing, and status 2 is that of a command
    line [flag.Parse] refused. *)
Theorem exit_status_and_message (env : Env) (x : Exit) :
  main env = Some x ->
  (status x = 1 /\ exists err, stderr x = [("%v" +:+ LF, err)]
                               /\ flags env = FlagsOk)
  \/ (status x = 0 /\ stderr x = [] /\ flags env <> FlagsBad)
  \/ (status x = 2 /\ stderr x = [] /\ flags env = FlagsBad).
Proof.
  unfold main, run, flag_Parse, select_done_or_listenErr, signal.NotifyContext,
    context.Err.
  destruct env as [[] [le|] [] [[se|]|] []]; cbn; intros [= <-]; cbn;
    first [ left; split; [reflexivity|]; eexists; split; reflexivity
          | right; left; repeat split; discriminate
          | right; right; repeat split ].
Qed.

Lemma exit_status_and_message_witness :
  main sample.interrupted_run
  = Some {| status := 1;
            stderr := [("%v" +:+ LF, errorString "context canceled")] |}
  /\ ((1 = 1 /\ exists err, [("%v" +:+ LF, errorString "context canceled")]
                            = [("%v" +:+ LF, err)]
                            /\ flags sample.interrupted_run = FlagsOk)
      \/ (1 = 0 /\ [("%v" +:+ LF, errorString "context canceled")] = []
          /\ flags sample.interrupted_run <> FlagsBad)
      \/ (1 = 2 /\ [("%v" +:+ LF, errorString "context canceled")] = []
          /\ flags sample.interrupted_run = FlagsBad)).
Proof.
  refine (conj eq_refl _).
  exact (exit_status_and_message sample.interrupted_run
           {| status := 1;
              stderr := [("%v" +:+ LF, errorString "context canceled")] |}
           eq_refl).
Defined.

(** X12.  A listener that cannot be bound ends [run] at once, before the
    [select]: whatever the context, and whether or not an interrupt has
    arrived, [run] returns the bind error wrapped with the address, and
    [main] prints it and exits with status 1. *)
Theorem listen_failure_is_fatal (env : Env) (err : error) (ctx : context.Context) :
  flags env = FlagsOk ->
  listen_err env = Some err ->
  run ctx env
  = Returns (Some (wrapError "failed to listen on %q: %w" ["localhost:3000"] err))
  /\ main env
     = Some {| status := 1;
               stderr := [("%v" +:+ LF,
                           wrapError "failed to listen on %q: %w"
                             ["localhost:3000"] err)] |}.
Proof.
  intros Hflags Hlisten. unfold main, run, flag_Parse.
  rewrite Hflags, Hlisten. split; reflexivity.
Qed.

Lemma listen_failure_is_fatal_witness :
  flags sample.cannot_bind = FlagsOk
  /\ listen_err sample.cannot_bind
     = Some (errorString "bind: address already in use")
  /\ interrupted sample.cannot_bind = true
  /\ main sample.cannot_bind
     = Some {| status := 1;
               stderr := [("%v" +:+ LF,
                           wrapError "failed to listen on %q: %w"
                             ["localhost:3000"]
                             (errorString "bind: address already in use"))] |}.
Proof.
  refine (conj eq_refl (conj eq_refl (conj eq_refl _))).
  exact (proj2 (listen_failure_is_fatal sample.cannot_bind
                  (errorString "bind: address already in use")
                  context.Background eq_refl eq_refl)).
Defined.

(** X13.  Once the server is listening, a [Serve] that returns an error
    always ends the process with status 1 and one printed line.  The line
    is that error as [Serve] gave it, not wrapped, unless an interrupt has
    arrived as well and [select] takes that case, in which case it is the
    cancellation error. *)
Theorem serve_failure_is_fatal (env : Env) (err : error) :
  flags env = FlagsOk ->
  listen_err env = None ->
  serve_done env = Some (Some err) ->
  exists printed,
    main env = Some {| status := 1; stderr := [("%v" +:+ LF, printed)] |}
    /\ (printed = err
        \/ (interrupted env = true /\ ctx_case_first env = true
            /\ printed = errorString "context canceled")).
Proof.
  intros Hflags Hlisten Hserve.
  unfold main, run, flag_Parse, select_done_or_listenErr, signal.NotifyContext,
    context.Err.
  rewrite Hflags, Hlisten, Hserve. cbn.
  destruct (interrupted env) eqn:Hint; cbn.
  - destruct (ctx_case_first env) eqn:Hfirst.
    + eexists. split; [reflexivity|]. right. now repeat split.
    + eexists. split; [reflexivity|]. now left.
  - eexists. split; [reflexivity|]. now left.
Qed.

Lemma serve_failure_is_fatal_witness :
  flags sample.serve_fails = FlagsOk
  /\ listen_err sample.serve_fails = None
  /\ serve_done sample.serve_fails
     = Some (Some (errorString "accept: too many open files"))
  /\ exists printed,
       main sample.serve_fails
       = Some {| status := 1; stderr := [("%v" +:+ LF, printed)] |}.
Proof.
  refine (conj eq_refl (conj eq_refl (conj eq_refl _))).
  destruct (serve_failure_is_fatal sample.serve_fails
              (errorString "accept: too many open files")
              eq_refl eq_refl eq_refl) as (printed & Hmain & _).
  exists printed. exact Hmain.
Defined.

(* ===================================================================== *)
(** * The same request twice *)
(* ===================================================================== *)

Section Repetition.
Context {M : Type} `{Message M}.

(** X14.  Storing is idempotent within a nanosecond: when a call has
    succeeded, the same call again at the same clock reading succeeds as
    well, with no condition on the room left, since the entry is emptied
    before it is written again, and it leaves the file tree and the free
    space exactly as the first call left them. *)
Theorem same_request_again_changes_nothing (s : Sink) (ctx : context.Context)
    (stream : string) (msg : M) (w : World) :
  proper_root (dir s) -> filepath.plain stream ->
  let r1 := Sink_Export s ctx stream msg w in
  let r2 := Sink_Export s ctx stream msg (snd r1) in
  fst r1 = None ->
  fst r2 = None
  /\ nodes (snd r2) = nodes (snd r1)
  /\ free (snd r2) = free (snd r1).
Proof.
  intros Hroot Hs r1 r2 Hok1. subst r1 r2.
  destruct (Sink_Export_success s ctx stream msg w Hroot Hs Hok1)
    as (b & w1a & Hm & _ & Hdir & _ & _ & Hfit & Hnodes & Hfree).
  pose proof (Sink_Export_same_env s ctx stream msg w) as (Hnow & Hcwd & _).
  set (w1 := snd (Sink_Export s ctx stream msg w)) in *.
  set (ke := os.resolve w (dir s) ++ [stream; strconv.FormatInt (now w) 10]) in *.
  assert (Hres : os.resolve w1 (dir s) = os.resolve w (dir s))
    by now apply resolve_same_cwd.
  assert (Hfile : nodes w1 !! ke = Some (File true b))
    by now rewrite Hnodes, lookup_insert_eq.
  rewrite Sink_Export_dir_exists; try assumption.
  2:{ rewrite Hres, Hnodes.
      rewrite lookup_insert_ne by (symmetry; apply stream_dir_not_entry).
      exact Hdir. }
  rewrite Hm, Hnow.
  pose proof (WriteFile_spec (entry_path (dir s) stream (now w)) b 420 w1) as Hwr.
  cbn zeta in Hwr. rewrite resolve_entry, Hres in Hwr by assumption.
  fold ke in Hwr.
  destruct (os.WriteFile _ b 420 w1) as [ew w2]. cbn [fst snd].
  assert (Hopen : can_open w1 ke = true) by (unfold can_open; now rewrite Hfile).
  assert (Hroom : room_for w1 ke = (free w1 + length b)%nat)
    by (unfold room_for; now rewrite Hfile).
  rewrite Hopen, Hroom in Hwr. destruct Hwr as (_ & -> & Hn & Hf & _).
  assert (Hle : (length b <=? free w1 + length b)%nat = true)
    by (apply Nat.leb_le; lia).
  rewrite Hle. rewrite Nat.min_l in Hn, Hf by lia.
  rewrite firstn_all, Hfile in Hn. cbn [is_file] in Hn.
  repeat split.
  - rewrite Hn. apply insert_id. exact Hfile.
  - rewrite Hf. lia.
Qed.

End Repetition.

Lemma same_request_again_changes_nothing_witness :
  proper_root (dir the_sink) /\ filepath.plain "logs"
  /\ fst (Sink_Export the_sink sample.ctx "logs" sample.gauge (sample.fresh 17))
     = None
  /\ fst (Sink_Export the_sink sample.ctx "logs" sample.gauge
            (snd (Sink_Export the_sink sample.ctx "logs" sample.gauge
                    (sample.fresh 17)))) = None.
Proof.
  assert (Hroot : proper_root (dir the_sink))
    by (repeat split; (reflexivity || discriminate)).
  assert (Hs : filepath.plain "logs")
    by (repeat split; (reflexivity || discriminate)).
  assert (Hok : fst (Sink_Export the_sink sample.ctx "logs" sample.gauge
                       (sample.fresh 17)) = None)
    by (vm_compute; reflexivity).
  refine (conj Hroot (conj Hs (conj Hok _))).
  exact (proj1 (same_request_again_changes_nothing the_sink sample.ctx "logs"
                  sample.gauge (sample.fresh 17) Hroot Hs Hok)).
Defined.
